(** * y-cli: the project-initialisation workflow

    A shallow embedding of the scaffolding tool's sources:
    - [utils.js]      : [resolveApp], [removeDir], [changePackageJson],
                        [npmInstall];
    - [gitClone.js]   : [clone];
    - [interactive.js]: the prompt wrappers the action calls;
    - [initAction.js] : the orchestrator behind [create <app-name>].

    JavaScript strings are sequences of UTF-16 code units; they are
    modelled as [list N].  Plain objects used as dictionaries
    ([package.json]) are finite maps from property names to JSON values.
    The tables of constants.js ([templates], [messages]) and the external
    tools are parameters of the workflow. *)

From Stdlib Require Import String Ascii List NArith ZArith Bool Lia.
From stdpp Require Import base option list gmap.
Import ListNotations.

Local Open Scope N_scope.

(** ** JavaScript strings *)

Abbreviation jsstring := (list N) (only parsing).

(** An ASCII literal as a JavaScript string. *)
Definition jstr (s : string) : jsstring :=
  List.map N_of_ascii (list_ascii_of_string s).

(** [Boolean(s)] for a string: only the empty string is falsy. *)
Definition truthy (s : jsstring) : bool :=
  match s with
  | [] => false
  | _ :: _ => true
  end.

(** *** Character classes and [String.prototype.match]

    The only regular expression of the program is a single character
    class with the global flag and without the [u] flag, so it is matched
    against code units. *)

Inductive class_item :=
| CRange (lo hi : N)   (* [lo-hi] *)
| CChar (c : N).       (* a literal or escaped character *)

Definition class_item_matches (c : N) (it : class_item) : bool :=
  match it with
  | CRange lo hi => (lo <=? c) && (c <=? hi)
  | CChar d => c =? d
  end.

Definition class_matches (cls : list class_item) (c : N) : bool :=
  List.existsb (class_item_matches c) cls.

(** [s.match(/[cls]/g)]: [null] when nothing matches, otherwise the array
    of all matches, each one code unit long. *)
Definition match_g (cls : list class_item) (s : jsstring) : option (list jsstring) :=
  match List.filter (class_matches cls) s with
  | [] => None
  | ms => Some (List.map (fun c => [c]) ms)
  end.

(** The class of the name check in [initAction.js]: the range
    U+4E00-U+9FFF followed by twenty-one literal characters. *)
Definition illegal_name_class : list class_item :=
  CRange 0x4E00 0x9FFF :: List.map CChar (jstr "`~!@#$%&^*()[]\;:.<>?").

(** *** [String.prototype.trim]

    White space and line terminators of ECMAScript. *)
Definition is_white_space (c : N) : bool :=
  (c =? 0x09) || (c =? 0x0A) || (c =? 0x0B) || (c =? 0x0C) || (c =? 0x0D)
  || (c =? 0x20) || (c =? 0xA0) || (c =? 0x1680)
  || ((0x2000 <=? c) && (c <=? 0x200A))
  || (c =? 0x2028) || (c =? 0x2029) || (c =? 0x202F) || (c =? 0x205F)
  || (c =? 0x3000) || (c =? 0xFEFF).

Fixpoint trimStart (s : jsstring) : jsstring :=
  match s with
  | [] => []
  | c :: s' => if is_white_space c then trimStart s' else s
  end.

Definition trimEnd (s : jsstring) : jsstring := rev (trimStart (rev s)).

Definition trim (s : jsstring) : jsstring := trimEnd (trimStart s).

(** *** [String.prototype.split] with a one-unit separator and no limit *)
Fixpoint split (sep : N) (s : jsstring) : list jsstring :=
  match s with
  | [] => [[]]
  | c :: s' =>
      if c =? sep then [] :: split sep s'
      else match split sep s' with
           | piece :: rest => (c :: piece) :: rest
           | [] => [[c]]
           end
  end.

Definition comma : N := N_of_ascii ",".

(** ** JSON values and manifest objects *)

#[local] Set Warnings "-register-all".

Inductive json :=
| JNull
| JBool (b : bool)
| JNum (literal : jsstring)   (* numbers are never computed with: kept as text *)
| JStr (s : jsstring)
| JArr (items : list json)
| JObj (props : list (jsstring * json)).

(** The object read from [package.json]: its own properties.  Key order is
    not represented. *)
Abbreviation manifest := (gmap (list N) json) (only parsing).

(** [pkg[item] = v] on a plain object.  An own property is created or
    overwritten, except for ["__proto__"]: when the object has no own
    property of that name the assignment reaches the accessor inherited
    from [Object.prototype], and no own property changes. *)
Definition obj_set (item : jsstring) (v : json) (pkg : manifest) : manifest :=
  if decide (item = jstr "__proto__") then
    match pkg !! item with
    | Some _ => <[item := v]> pkg
    | None => pkg
    end
  else <[item := v]> pkg.

(** ** [changePackageJson]: the loop over the patch

    The patch [info] is given by its own enumerable entries, in the order
    of [Object.keys(info)]; in an entry [(item, v)], [v] is [info[item]].
    Answers of input prompts are strings. *)
Abbreviation patch := (list (list N * list N)) (only parsing).

Definition Object_keys (info : patch) : list jsstring := info.*1.

(** The body of the [forEach] callback (utils.js, lines 164-181). *)
Definition patch_field (name : jsstring) (pkg : manifest) (entry : jsstring * jsstring)
  : manifest :=
  let '(item, v) := entry in
  if decide (item = jstr "name") then
    obj_set item (JStr (if truthy v && truthy (trim v) then trim v else name)) pkg
  else if decide (item = jstr "keywords") then
    obj_set item (JArr (List.map JStr (split comma v))) pkg
  else if truthy v && truthy (trim v) then
    obj_set item (JStr v) pkg
  else pkg.

Definition applyPatch (name : jsstring) (info : patch) (pkg : manifest) : manifest :=
  fold_left (patch_field name) info pkg.

(** What [fs.readJson] can yield: a JSON object, or a JSON value of another
    kind (null, a boolean, a number, a string or an array). *)
Inductive document :=
| DocObject (pkg : manifest)
| DocOther (v : json).

(** What the callback assigns to [pkg[item]] for an entry, when it assigns:
    the right-hand sides of lines 169, 174 and 179. *)
Definition assignment (name : jsstring) (entry : jsstring * jsstring) : option json :=
  let '(item, v) := entry in
  if decide (item = jstr "name") then
    Some (JStr (if truthy v && truthy (trim v) then trim v else name))
  else if decide (item = jstr "keywords") then
    Some (JArr (List.map JStr (split comma v)))
  else if truthy v && truthy (trim v) then
    Some (JStr v)
  else None.

Section Roots.

(** [v[item] = x] in strict mode for a JSON value [v] that is not an
    object: the engine throws (a [TypeError] on [null] and on a primitive)
    or leaves a value (an array).  It is not computed here: a parameter. *)
Variable assign_other : json -> jsstring -> json -> list N + json.

(** The callback on whatever was read.  On an object it is [patch_field];
    on another value each assignment is the engine's. *)
Definition patch_step (name : jsstring) (doc : document) (entry : jsstring * jsstring)
  : list N + document :=
  match doc with
  | DocObject pkg => inr (DocObject (patch_field name pkg entry))
  | DocOther v =>
      match assignment name entry with
      | Some x =>
          match assign_other v entry.1 x with
          | inl err => inl err
          | inr v' => inr (DocOther v')
          end
      | None => inr doc
      end
  end.

(** [Object.keys(info).forEach(...)]: an exception ends the loop. *)
Fixpoint patch_document (name : jsstring) (info : patch) (doc : document)
  : list N + document :=
  match info with
  | [] => inr doc
  | entry :: rest =>
      match patch_step name doc entry with
      | inl err => inl err
      | inr doc' => patch_document name rest doc'
      end
  end.

End Roots.

(** ** The outside world

    Console output, spinner states, prompts and calls of external tools are
    recorded as a trace of events. *)

(** A thrown exception or the value a promise rejects with: its text. *)
Abbreviation error := (list N) (only parsing).

(** [-t --template [template]]: absent ([undefined]), given without a value
    ([true]) or given with a value. *)
Inductive template_option :=
| TplAbsent
| TplFlag
| TplValue (s : jsstring).

(** The option object commander passes to the action. *)
Record Options := {
  template : template_option;
  force : bool;
  ignore : bool;
}.

(** An entry of [templates] (constants.js). *)
Record TemplateDescriptor := {
  tpl_name : jsstring;
  tpl_value : jsstring;
  tpl_desc : jsstring;
}.

(** An entry of [messages] (constants.js). *)
Record Question := {
  q_name : jsstring;
  q_message : jsstring;
}.

(** The texts the program shows, by the place that shows them. *)
Inductive text :=
| TxtNeedGit                               (* initAction: git is not installed *)
| TxtIllegalName                           (* initAction: illegal characters *)
| TxtNoSuchTemplate (t : template_option)  (* initAction: unknown template *)
| TxtRunList                               (* initAction: run [duyi-cli list] *)
| TxtChooseTemplate                        (* initAction: choose a template *)
| TxtFolderExists (name : jsstring)        (* initAction: the folder exists *)
| TxtDeleteFolder (name : jsstring)        (* initAction: delete the folder? *)
| TxtSameNameFolder (name : jsstring)      (* initAction: creation failed *)
| TxtCreateFailed                          (* initAction: clone failed *)
| TxtError (err : error)                   (* console.log(err) *)
| TxtRemoving (dir : jsstring)             (* removeDir: spinner text *)
| TxtRemoved (dir : jsstring)              (* removeDir: success *)
| TxtRemoveFailed (dir : jsstring)         (* removeDir: failure *)
| TxtManifestFailed                        (* changePackageJson: failure *)
| TxtPulling                               (* clone: spinner text *)
| TxtPulled                                (* clone: success *)
| TxtInstallFailed                         (* npmInstall: failure *)
| TxtInstalled                             (* npmInstall: dependencies installed *)
| TxtCreated.                              (* npmInstall: project created *)

Inductive event :=
| EConsole (t : text)                                  (* console.log *)
| ESpinStart (t : text)                                (* ora(...).start() *)
| ESpinSucceed (t : text)                              (* spinner.succeed *)
| ESpinFail (t : text)                                 (* spinner.fail *)
| EConfirm (t : text)                                  (* inquirer: confirm *)
| EChoose (t : text) (choices : list TemplateDescriptor) (* inquirer: list *)
| EInputs (qs : list Question)                         (* inquirer: inputs *)
| ERemove (path : jsstring)                            (* fs.remove *)
| EDownload (remote dest : jsstring)                   (* download-git-repo *)
| EWriteJson (path : jsstring) (doc : document)        (* fs.writeJson, 2 spaces *)
| EExec (command : jsstring).                          (* shell.exec *)

(** How a computation ends. *)
Inductive result (A : Type) :=
| Val (a : A)          (* normal completion *)
| Returned             (* a [return] statement was executed *)
| Throw (e : error)    (* an exception, or a rejected promise awaited *)
| Exit (code : Z).     (* [shell.exit(code)]: the process is gone *)

Arguments Val {A} a.
Arguments Returned {A}.
Arguments Throw {A} e.
Arguments Exit {A} code.

Section Workflow.

(** States of the file system. *)
Context {FS : Type}.

(** The collaborators of the workflow.  The two tables of constants.js,
    the environment of the process, and the external tools, each given by
    what it answers and what it does to the file system. *)
Record Env := {
  templates : list TemplateDescriptor;
  messages : list Question;
  which_git : bool;                                   (* shell.which('git') *)
  appDirectory : jsstring;                            (* fs.realpathSync(process.cwd()) *)
  shell_pwd : jsstring;                               (* shell.pwd() *)
  path_resolve : jsstring -> jsstring -> jsstring;    (* path.resolve *)
  fs_existsSync : jsstring -> FS -> bool;
  fs_remove : jsstring -> FS -> FS * option error;
  fs_readJson : jsstring -> FS -> error + document;
  fs_writeJson : jsstring -> document -> FS -> FS * option error;
  assign_other : json -> jsstring -> json -> error + json;  (* the engine, see [patch_step] *)
  download : jsstring -> jsstring -> FS -> FS * option error;
  shell_exec : jsstring -> FS -> FS * Z;              (* the exit code *)
  answer_confirm : text -> error + bool;
  answer_choose : text -> list TemplateDescriptor -> error + jsstring;
  answer_inputs : list Question -> error + patch;
}.

(** *** The monad: file-system state, a trace and four ways to end *)

Definition M (A : Type) : Type := FS -> result A * FS * list event.

Definition ret {A} (a : A) : M A := fun fs => (Val a, fs, []).

Definition bind {A B} (m : M A) (k : A -> M B) : M B :=
  fun fs =>
    match m fs with
    | (Val a, fs1, t1) => let '(r, fs2, t2) := k a fs1 in (r, fs2, t1 ++ t2)
    | (Returned, fs1, t1) => (Returned, fs1, t1)
    | (Throw e, fs1, t1) => (Throw e, fs1, t1)
    | (Exit c, fs1, t1) => (Exit c, fs1, t1)
    end.

Definition emit (e : event) : M unit := fun fs => (Val tt, fs, [e]).

(** [return] *)
Definition return_ {A} : M A := fun fs => (Returned, fs, []).

Definition throw {A} (e : error) : M A := fun fs => (Throw e, fs, []).

(** [shell.exit(code)] *)
Definition shell_exit {A} (code : Z) : M A := fun fs => (Exit code, fs, []).

(** [try { m } catch (err) { h err }] *)
Definition try_catch {A} (m : M A) (h : error -> M A) : M A :=
  fun fs =>
    match m fs with
    | (Throw e, fs1, t1) => let '(r, fs2, t2) := h e fs1 in (r, fs2, t1 ++ t2)
    | other => other
    end.

(** The body of a function: a [return] inside ends the function only. *)
Definition function_body (m : M unit) : M unit :=
  fun fs =>
    match m fs with
    | (Returned, fs1, t1) => (Val tt, fs1, t1)
    | other => other
    end.

(** A promise settled by the outside: awaited, it yields or throws. *)
Definition settle {A} (r : error + A) : M A :=
  match r with
  | inl e => throw e
  | inr a => ret a
  end.

Definition console_log (t : text) : M unit := emit (EConsole t).

End Workflow.

Arguments Env : clear implicits.
Arguments M : clear implicits.

Declare Scope js_scope.
Delimit Scope js_scope with js.

Notation "x <- m ; k" := (bind m (fun x => k))
  (at level 20, m at level 100, k at level 200, only parsing) : js_scope.
Notation "m ;; k" := (bind m (fun _ => k))
  (at level 100, k at level 200, only parsing, right associativity) : js_scope.

Section Program.

Context {FS : Type} (E : Env FS).

Local Open Scope js_scope.

(** *** Calls of the external tools *)

Definition existsSync (path : jsstring) : M FS bool :=
  fun fs => (Val (fs_existsSync E path fs), fs, []).

Definition remove (path : jsstring) : M FS unit :=
  fun fs =>
    let '(fs1, r) := fs_remove E path fs in
    (match r with None => Val tt | Some e => Throw e end, fs1, [ERemove path]).

Definition readJson (path : jsstring) : M FS document :=
  fun fs =>
    (match fs_readJson E path fs with inl e => Throw e | inr doc => Val doc end, fs, []).

Definition writeJson (path : jsstring) (doc : document) : M FS unit :=
  fun fs =>
    let '(fs1, r) := fs_writeJson E path doc fs in
    (match r with None => Val tt | Some e => Throw e end, fs1, [EWriteJson path doc]).

(** [shell.exec(command).code] *)
Definition exec_code (command : jsstring) : M FS Z :=
  fun fs =>
    let '(fs1, code) := shell_exec E command fs in
    (Val code, fs1, [EExec command]).

(** *** interactive.js *)

Definition inquirerConfirm (message : text) : M FS bool :=
  emit (EConfirm message) ;;
  settle (answer_confirm E message).

Definition inquirerChoose (message : text) (choices : list TemplateDescriptor)
  : M FS jsstring :=
  emit (EChoose message choices) ;;
  settle (answer_choose E message choices).

Definition inquirerInputs (msgs : list Question) : M FS patch :=
  emit (EInputs msgs) ;;
  settle (answer_inputs E msgs).

(** *** gitClone.js *)

Definition clone (remote name : jsstring) : M FS unit :=
  emit (ESpinStart TxtPulling) ;;
  fun fs =>
    let '(fs1, r) := download E remote name fs in
    match r with
    | Some err => (Throw err, fs1, [EDownload remote name; ESpinFail (TxtError err)])
    | None => (Val tt, fs1, [EDownload remote name; ESpinSucceed TxtPulled])
    end.

(** *** utils.js *)

Definition resolveApp (relativePath : jsstring) : jsstring :=
  path_resolve E (appDirectory E) relativePath.

Definition removeDir (dir : jsstring) : M FS unit :=
  function_body (
    emit (ESpinStart (TxtRemoving dir)) ;;
    try_catch
      (remove (resolveApp dir) ;;
       emit (ESpinSucceed (TxtRemoved dir)))
      (fun err =>
         emit (ESpinFail (TxtRemoveFailed dir)) ;;
         console_log (TxtError err) ;;
         return_)).

Definition package_json (name : jsstring) : jsstring :=
  name ++ jstr "/package.json".

Definition changePackageJson (name : jsstring) (info : patch) : M FS unit :=
  try_catch
    (pkg <- readJson (resolveApp (package_json name)) ;
     patched <- settle (patch_document (assign_other E) name info pkg) ;
     writeJson (resolveApp (package_json name)) patched)
    (fun err =>
       console_log TxtManifestFailed ;;
       console_log (TxtError err)).

Definition install_command (dir : jsstring) : jsstring :=
  jstr "cd " ++ shell_pwd E ++ jstr "/" ++ dir ++ jstr " && npm install --force".

Definition npmInstall (dir : jsstring) : M FS unit :=
  code <- exec_code (install_command dir) ;
  (if negb (code =? 0)%Z then
     console_log TxtInstallFailed ;;
     shell_exit 1
   else ret tt) ;;
  emit (ESpinSucceed TxtInstalled) ;;
  emit (ESpinSucceed TxtCreated) ;;
  shell_exit 1.

(** *** initAction.js *)

(** [Boolean(option.template)] *)
Definition template_truthy (t : template_option) : bool :=
  match t with
  | TplAbsent => false
  | TplFlag => true
  | TplValue s => truthy s
  end.

(** [template.name === option.template] *)
Definition name_is (t : template_option) (d : TemplateDescriptor) : bool :=
  match t with
  | TplValue s => bool_decide (tpl_name d = s)
  | TplAbsent | TplFlag => false
  end.

Definition initAction (name : jsstring) (option : Options) : M FS unit :=
  function_body (
    (* 1. git must be installed *)
    (if negb (which_git E) then
       console_log TxtNeedGit ;;
       shell_exit 1
     else ret tt) ;;
    (* 2. the project name *)
    match match_g illegal_name_class name with
    | Some _ =>
        console_log TxtIllegalName ;;
        return_
    | None => ret tt
    end ;;
    (* 3. the template *)
    repository <-
      (if template_truthy (template option) then
         match List.find (name_is (template option)) (templates E) with
         | None =>
             console_log (TxtNoSuchTemplate (template option)) ;;
             console_log TxtRunList ;;
             return_
         | Some d => ret (tpl_value d)
         end
       else
         inquirerChoose TxtChooseTemplate (templates E)) ;
    (* 4. a folder of the same name *)
    (here <- existsSync (resolveApp name) ;
     if here && negb (force option) then
       console_log (TxtFolderExists name) ;;
       answer <- inquirerConfirm (TxtDeleteFolder name) ;
       if (answer : bool) then removeDir name
       else
         console_log (TxtSameNameFolder name) ;;
         return_
     else
       here' <- existsSync name ;
       if here' && force option then
         console_log (TxtFolderExists name) ;;
         removeDir name
       else ret tt) ;;
    (* 5. clone the template *)
    try_catch
      (clone repository name)
      (fun err =>
         console_log TxtCreateFailed ;;
         console_log (TxtError err) ;;
         shell_exit 1) ;;
    (* 6. the manifest *)
    (if negb (ignore option) then
       answers <- inquirerInputs (messages E) ;
       changePackageJson name answers
     else ret tt) ;;
    (* 7. the dependencies *)
    npmInstall name).

End Program.

(** ** Reading a run *)

(** The events that change the disk: removal, clone, manifest write and
    the package manager. *)
Definition is_mutation (e : event) : bool :=
  match e with
  | ERemove _ | EDownload _ _ | EWriteJson _ _ | EExec _ => true
  | _ => false
  end.

Definition mutations (t : list event) : list event := List.filter is_mutation t.

(** The exit status of the process once the action has ended: [shell.exit]
    fixes it; an action that completes leaves the status at zero.  What a
    rejected action leaves depends on the runtime. *)
Definition exit_status (r : result unit) : option Z :=
  match r with
  | Val _ | Returned => Some 0%Z
  | Exit code => Some code
  | Throw _ => None
  end.

(** What an assignment leaves under the assigned name, given what was
    there. *)
Definition assigned (item : jsstring) (x : json) (old : option json) : option json :=
  if decide (item = jstr "__proto__") then
    match old with
    | Some _ => Some x
    | None => None
    end
  else Some x.

(** A string without anything but white space (the empty one included). *)
Definition blank (s : jsstring) : Prop :=
  forall c, c ∈ s -> is_white_space c = true.

(** The characters a project name must not contain, as the documentation
    lists them. *)
Definition special_characters : jsstring := jstr "`~!@#$%&^*()[]\;:.<>?".

Definition cjk (c : N) : Prop := 0x4E00 <= c <= 0x9FFF.

Definition illegal_name (name : jsstring) : Prop :=
  exists c, c ∈ name /\ (cjk c \/ c ∈ special_characters).

(** Step 3 of [initAction] has produced a repository, with its trace. *)
Inductive template_resolved {FS} (E : Env FS) (o : Options)
  : jsstring -> list event -> Prop :=
| resolved_by_option d :
    template_truthy (template o) = true ->
    List.find (name_is (template o)) (templates E) = Some d ->
    template_resolved E o (tpl_value d) []
| resolved_by_prompt repository :
    template_truthy (template o) = false ->
    answer_choose E TxtChooseTemplate (templates E) = inr repository ->
    template_resolved E o repository [EChoose TxtChooseTemplate (templates E)].

(** Step 4 of [initAction]: the two conditions and what they guard. *)
Definition clear_destination {FS} (E : Env FS) (name : jsstring) (option : Options)
  : M FS unit :=
  (here <- existsSync E (resolveApp E name) ;
   if here && negb (force option) then
     console_log (TxtFolderExists name) ;;
     answer <- inquirerConfirm E (TxtDeleteFolder name) ;
     if (answer : bool) then removeDir E name
     else
       console_log (TxtSameNameFolder name) ;;
       return_
   else
     here' <- existsSync E name ;
     if here' && force option then
       console_log (TxtFolderExists name) ;;
       removeDir E name
     else ret tt)%js.

(** Steps 5 to 7 of [initAction], for a repository. *)
Definition fetch_and_finish {FS} (E : Env FS) (name : jsstring) (option : Options)
  (repository : jsstring) : M FS unit :=
  (try_catch
     (clone E repository name)
     (fun err =>
        console_log TxtCreateFailed ;;
        console_log (TxtError err) ;;
        shell_exit 1) ;;
   (if negb (ignore option) then
      answers <- inquirerInputs E (messages E) ;
      changePackageJson E name answers
    else ret tt) ;;
   npmInstall E name)%js.

(** Step 4 leads to a removal: the folder is there and either the user
    agreed to delete it or [--force] was given. *)
Definition removal_due {FS} (E : Env FS) (name : jsstring) (o : Options) (fs : FS)
  : Prop :=
  (fs_existsSync E (resolveApp E name) fs = true
   /\ force o = false
   /\ answer_confirm E (TxtDeleteFolder name) = inr true)
  \/ (fs_existsSync E name fs = true /\ force o = true).

(** [--template] was given something the test of step 3 takes: the bare
    flag or a value that is not the empty string. *)
Definition template_given (t : template_option) : Prop :=
  t = TplFlag \/ exists s, s ≠ [] /\ t = TplValue s.

(** No registered template carries the name given by [--template]. *)
Definition unregistered (ts : list TemplateDescriptor) (t : template_option) : Prop :=
  forall d, d ∈ ts -> t ≠ TplValue (tpl_name d).

(** ** A small concrete world

    A disk of folders and manifests under absolute paths, a registry of two
    templates, and tools that behave. *)
Module Demo.

Inductive node :=
| Folder
| PackageJson (pkg : manifest)
| OtherJson (v : json).

Abbreviation disk := (gmap (list N) node) (only parsing).

Definition cwd : jsstring := jstr "/home/dev".

Definition is_absolute (p : jsstring) : bool :=
  match p with
  | c :: _ => c =? N_of_ascii "/"
  | [] => false
  end.

(** [path.resolve] on a base and a plain name. *)
Definition resolve (base p : jsstring) : jsstring :=
  if is_absolute p then p else base ++ jstr "/" ++ p.

Definition vue : TemplateDescriptor :=
  {| tpl_name := jstr "vue";
     tpl_value := jstr "github:demo/vue-template";
     tpl_desc := jstr "Vue starter" |}.

Definition react : TemplateDescriptor :=
  {| tpl_name := jstr "react";
     tpl_value := jstr "github:demo/react-template";
     tpl_desc := jstr "React starter" |}.

Definition questions : list Question :=
  [ {| q_name := jstr "name"; q_message := jstr "name" |};
    {| q_name := jstr "keywords"; q_message := jstr "keywords" |};
    {| q_name := jstr "description"; q_message := jstr "description" |} ].

(** The manifest every template ships. *)
Definition shipped : manifest :=
  <[jstr "name" := JStr (jstr "template")]>
    (<[jstr "version" := JStr (jstr "1.0.0")]>
       (<[jstr "description" := JStr (jstr "A starter")]> ∅)).

Definition answers : patch :=
  [ (jstr "name", jstr "  ");
    (jstr "keywords", jstr "a,b,c");
    (jstr "description", []) ].

(** [removal_works]: whether [fs.remove] succeeds; [yes]: the answer to
    every confirmation. *)
Definition env (removal_works yes : bool) : Env disk :=
  {| templates := [vue; react];
     messages := questions;
     which_git := true;
     appDirectory := cwd;
     shell_pwd := cwd;
     path_resolve := resolve;
     fs_existsSync := fun p d => bool_decide (is_Some (d !! resolve cwd p));
     fs_remove := fun p d =>
       if removal_works
       then (delete (resolve cwd p) (delete (resolve cwd p ++ jstr "/package.json") d), None)
       else (d, Some (jstr "EPERM"));
     fs_readJson := fun p d =>
       match d !! resolve cwd p with
       | Some (PackageJson pkg) => inr (DocObject pkg)
       | Some (OtherJson v) => inr (DocOther v)
       | _ => inl (jstr "ENOENT")
       end;
     fs_writeJson := fun p doc d =>
       (<[resolve cwd p := match doc with
                           | DocObject pkg => PackageJson pkg
                           | DocOther v => OtherJson v
                           end]> d, None);
     assign_other := fun _ _ _ => inl (jstr "TypeError");
     download := fun remote dest d =>
       (<[resolve cwd dest := Folder]>
          (<[resolve cwd dest ++ jstr "/package.json" := PackageJson shipped]> d), None);
     shell_exec := fun _ d => (d, 0%Z);
     answer_confirm := fun _ => inr yes;
     answer_choose := fun _ _ => inr (tpl_value react);
     answer_inputs := fun _ => inr answers |}.

Definition clean : disk := ∅.

(** A disk on which [myapp] is already there. *)
Definition taken : disk :=
  <[jstr "/home/dev/myapp" := Folder]> ∅.

Definition myapp : jsstring := jstr "myapp".

(** [create myapp --template vue --ignore] *)
Definition vue_ignore : Options :=
  {| template := TplValue (jstr "vue"); force := false; ignore := true |}.

(** [create myapp --template vue] *)
Definition vue_only : Options :=
  {| template := TplValue (jstr "vue"); force := false; ignore := false |}.

(** [create myapp --template vue --force --ignore] *)
Definition vue_force : Options :=
  {| template := TplValue (jstr "vue"); force := true; ignore := true |}.

(** [create myapp --template "" --ignore]: the value is the empty string. *)
Definition empty_template : Options :=
  {| template := TplValue []; force := false; ignore := true |}.

(** [create myapp --template angular] *)
Definition angular : Options :=
  {| template := TplValue (jstr "angular"); force := false; ignore := false |}.

End Demo.

(** ** More ways to read a patch and a run *)

(** [Array.prototype.join] with a one-unit separator. *)
Fixpoint join (sep : N) (pieces : list jsstring) : jsstring :=
  match pieces with
  | [] => []
  | piece :: rest =>
      match rest with
      | [] => piece
      | _ :: _ => piece ++ sep :: join sep rest
      end
  end.

(** What one call of the [forEach] callback leaves under its own property,
    from what was there. *)
Definition field_result (name item v : jsstring) (old : option json) : option json :=
  if decide (item = jstr "name") then
    assigned item (JStr (if truthy v && truthy (trim v) then trim v else name)) old
  else if decide (item = jstr "keywords") then
    assigned item (JArr (List.map JStr (split comma v))) old
  else if truthy v && truthy (trim v) then
    assigned item (JStr v) old
  else old.

(** Every event of the computation [m], from every state, satisfies [P]. *)
Definition trace_all {FS A} (P : event -> Prop) (m : M FS A) : Prop :=
  forall fs, Forall P (m fs).2.

(** One of the prompts of the action rejects with [err]. *)
Definition prompt_rejects {FS} (E : Env FS) (name : jsstring) (err : error) : Prop :=
  answer_choose E TxtChooseTemplate (templates E) = inl err
  \/ answer_confirm E (TxtDeleteFolder name) = inl err
  \/ answer_inputs E (messages E) = inl err.

(** Steps 1 to 4 have passed: the repository is chosen, the destination is
    dealt with, and the clone is next, from the state [fs1] and after the
    events [th]. *)
Inductive reaches_fetch {FS} (E : Env FS) (name : jsstring) (o : Options) (fs : FS)
  : jsstring -> FS -> list event -> Prop :=
| reaches_fetch_intro repo t0 fs1 tc :
    which_git E = true ->
    match_g illegal_name_class name = None ->
    template_resolved E o repo t0 ->
    clear_destination E name o fs = (Val tt, fs1, tc) ->
    reaches_fetch E name o fs repo fs1 (t0 ++ tc).

(** The computation [m] can complete with the value [a]. *)
Definition returns {FS A} (m : M FS A) (a : A) : Prop :=
  exists fs fs1 t, m fs = (Val a, fs1, t).

(** The events [initAction] can produce for a project and its options:
    each kind of event with the arguments it can carry and the options
    under which it can occur. *)
Definition may_emit {FS} (E : Env FS) (name : jsstring) (o : Options) (e : event)
  : Prop :=
  match e with
  | EConsole t =>
      match t with
      | TxtNeedGit => which_git E = false
      | TxtIllegalName => illegal_name name
      | TxtNoSuchTemplate t' =>
          t' = template o /\ template_truthy (template o) = true
      | TxtRunList => template_truthy (template o) = true
      | TxtFolderExists n | TxtSameNameFolder n => n = name
      | TxtCreateFailed | TxtError _ | TxtInstallFailed => True
      | TxtManifestFailed => ignore o = false
      | _ => False
      end
  | ESpinStart t => t = TxtPulling \/ t = TxtRemoving name
  | ESpinSucceed t =>
      t = TxtPulled \/ t = TxtRemoved name \/ t = TxtInstalled \/ t = TxtCreated
  | ESpinFail t => t = TxtRemoveFailed name \/ exists err, t = TxtError err
  | EConfirm t => t = TxtDeleteFolder name /\ force o = false
  | EChoose t choices =>
      t = TxtChooseTemplate /\ choices = templates E
      /\ template_truthy (template o) = false
  | EInputs qs => qs = messages E /\ ignore o = false
  | ERemove path => path = resolveApp E name
  | EDownload remote dest =>
      dest = name /\ exists t0, template_resolved E o remote t0
  | EWriteJson path _ =>
      path = resolveApp E (package_json name) /\ ignore o = false
  | EExec command => command = install_command E name
  end.

(** What [npmInstall] shows after the command has ended with [code]. *)
Definition install_report (code : Z) : list event :=
  if (code =? 0)%Z
  then [ESpinSucceed TxtInstalled; ESpinSucceed TxtCreated]
  else [EConsole TxtInstallFailed].

(** ** A world where tools fail

    The concrete world again, with a network that may be down, a package
    manager that may fail and a manifest that may be unreadable. *)
Module Faulty.

Definition env (online : bool) (install_code : Z) (readable : bool)
  : Env (gmap (list N) Demo.node) :=
  let base := Demo.env true true in
  {| templates := templates base;
     messages := messages base;
     which_git := which_git base;
     appDirectory := appDirectory base;
     shell_pwd := shell_pwd base;
     path_resolve := path_resolve base;
     fs_existsSync := fs_existsSync base;
     fs_remove := fs_remove base;
     fs_readJson := fun p d =>
       if readable then fs_readJson base p d else inl (jstr "EACCES");
     fs_writeJson := fs_writeJson base;
     assign_other := assign_other base;
     download := fun remote dest d =>
       if online then download base remote dest d else (d, Some (jstr "ETIMEDOUT"));
     shell_exec := fun _ d => (d, install_code);
     answer_confirm := answer_confirm base;
     answer_choose := answer_choose base;
     answer_inputs := answer_inputs base |}.

(** A registry in which the name [vue] is taken twice. *)
Definition vue_again : TemplateDescriptor :=
  {| tpl_name := jstr "vue";
     tpl_value := jstr "github:demo/vue3-template";
     tpl_desc := jstr "Vue 3 starter" |}.

Definition doubled : Env (gmap (list N) Demo.node) :=
  let base := Demo.env true true in
  {| templates := [Demo.react; Demo.vue; vue_again];
     messages := messages base;
     which_git := which_git base;
     appDirectory := appDirectory base;
     shell_pwd := shell_pwd base;
     path_resolve := path_resolve base;
     fs_existsSync := fs_existsSync base;
     fs_remove := fs_remove base;
     fs_readJson := fs_readJson base;
     fs_writeJson := fs_writeJson base;
     assign_other := assign_other base;
     download := download base;
     shell_exec := shell_exec base;
     answer_confirm := answer_confirm base;
     answer_choose := answer_choose base;
     answer_inputs := answer_inputs base |}.

(** The concrete world on a machine without git. *)
Definition without_git : Env (gmap (list N) Demo.node) :=
  let base := Demo.env true true in
  {| templates := templates base;
     messages := messages base;
     which_git := false;
     appDirectory := appDirectory base;
     shell_pwd := shell_pwd base;
     path_resolve := path_resolve base;
     fs_existsSync := fs_existsSync base;
     fs_remove := fs_remove base;
     fs_readJson := fs_readJson base;
     fs_writeJson := fs_writeJson base;
     assign_other := assign_other base;
     download := download base;
     shell_exec := shell_exec base;
     answer_confirm := answer_confirm base;
     answer_choose := answer_choose base;
     answer_inputs := answer_inputs base |}.

(** A template whose [package.json] holds [null]. *)
Definition null_manifest : Env (gmap (list N) Demo.node) :=
  let base := Demo.env true true in
  {| templates := templates base;
     messages := messages base;
     which_git := which_git base;
     appDirectory := appDirectory base;
     shell_pwd := shell_pwd base;
     path_resolve := path_resolve base;
     fs_existsSync := fs_existsSync base;
     fs_remove := fs_remove base;
     fs_readJson := fs_readJson base;
     fs_writeJson := fs_writeJson base;
     assign_other := assign_other base;
     download := fun remote dest d =>
       (<[Demo.resolve Demo.cwd dest := Demo.Folder]>
          (<[Demo.resolve Demo.cwd dest ++ jstr "/package.json" := Demo.OtherJson JNull]> d),
        None);
     shell_exec := shell_exec base;
     answer_confirm := answer_confirm base;
     answer_choose := answer_choose base;
     answer_inputs := answer_inputs base |}.

(** [create myapp] *)
Definition no_template : Options :=
  {| template := TplAbsent; force := false; ignore := true |}.

(** Answers with a padded name and a padded licence. *)
Definition padded : patch :=
  [ (jstr "name", jstr "  my-lib ");
    (jstr "license", jstr " MIT ");
    (jstr "keywords", jstr "cli, tool") ].

End Faulty.

(** * Properties *)

(** ** Strings *)

Example split_abc :
  split comma (jstr "a,b,c") = [jstr "a"; jstr "b"; jstr "c"].
Proof. reflexivity. Qed.

Example split_of_empty : split comma [] = [[]].
Proof. reflexivity. Qed.

Example trim_inner_space : trim (jstr "  a b  ") = jstr "a b".
Proof. reflexivity. Qed.

Example legal_name_passes : match_g illegal_name_class (jstr "my-app_1") = None.
Proof. reflexivity. Qed.

Example dotted_name_matches :
  match_g illegal_name_class (jstr "my.app?") = Some [jstr "."; jstr "?"].
Proof. reflexivity. Qed.

Lemma trimStart_blank s : blank s -> trimStart s = [].
Proof.
  induction s as [|c s IH]; intros Hb; [reflexivity|].
  simpl. rewrite (Hb c) by apply list_elem_of_here.
  apply IH. intros d Hd. apply Hb. by apply list_elem_of_further.
Qed.

Lemma trim_blank s : blank s -> trim s = [].
Proof.
  intros Hb. unfold trim. by rewrite trimStart_blank.
Qed.

Lemma trimStart_nil_blank s : trimStart s = [] -> blank s.
Proof.
  induction s as [|c s IH]; intros Hs d Hd.
  - by apply elem_of_nil in Hd.
  - simpl in Hs. destruct (is_white_space c) eqn:Hc; [|discriminate].
    apply elem_of_cons in Hd as [->|Hd]; [done|]. by apply IH.
Qed.

Lemma trimStart_suffix s : exists ws, s = ws ++ trimStart s /\ blank ws.
Proof.
  induction s as [|c s (ws & Hs & Hws)].
  - exists []. split; [done|]. intros d Hd. by apply elem_of_nil in Hd.
  - simpl. destruct (is_white_space c) eqn:Hc.
    + exists (c :: ws). split; [simpl; congruence|].
      intros d Hd. apply elem_of_cons in Hd as [->|Hd]; [done|]. by apply Hws.
    + exists []. split; [done|]. intros d Hd. by apply elem_of_nil in Hd.
Qed.

(** [trim] leaves nothing exactly on the blank strings. *)
Lemma trim_nil_iff s : trim s = [] <-> blank s.
Proof.
  split; [|apply trim_blank].
  unfold trim, trimEnd. intros Ht.
  assert (Hr : trimStart (rev (trimStart s)) = []).
  { apply (f_equal (@rev N)) in Ht. by rewrite rev_involutive in Ht. }
  apply trimStart_nil_blank in Hr.
  destruct (trimStart_suffix s) as (ws & Hs & Hws).
  intros d Hd. rewrite Hs in Hd. apply elem_of_app in Hd as [Hd|Hd]; [by apply Hws|].
  apply Hr. apply list_elem_of_In, in_rev. rewrite rev_involutive. by apply list_elem_of_In.
Qed.

(** The truthiness test of the loop fails on blank strings. *)
Lemma blank_falsy v : blank v -> truthy v && truthy (trim v) = false.
Proof.
  intros Hb. rewrite trim_blank by done. simpl. apply andb_false_r.
Qed.

Lemma not_blank_truthy v : ~ blank v -> truthy v && truthy (trim v) = true.
Proof.
  intros Hnb.
  destruct (trim v) as [|c t] eqn:Ht.
  - exfalso. apply Hnb. by apply trim_nil_iff.
  - destruct v; [discriminate Ht|reflexivity].
Qed.

(** ** The name check *)

Lemma class_matches_unfold c :
  class_matches illegal_name_class c
  = ((0x4E00 <=? c) && (c <=? 0x9FFF))
    || List.existsb (class_item_matches c) (List.map CChar special_characters).
Proof. reflexivity. Qed.

Lemma class_matches_illegal c :
  class_matches illegal_name_class c = true <-> cjk c \/ c ∈ special_characters.
Proof.
  rewrite class_matches_unfold, orb_true_iff, andb_true_iff, !N.leb_le.
  rewrite existsb_exists. unfold cjk. split.
  - intros [H|(it & Hit & Hm)]; [by left|right].
    apply in_map_iff in Hit as (d & <- & Hd).
    apply N.eqb_eq in Hm as ->. by apply list_elem_of_In.
  - intros [H|H]; [by left|right].
    exists (CChar c). split; [|apply N.eqb_refl].
    apply in_map. by apply list_elem_of_In.
Qed.

Lemma illegal_name_matches name :
  illegal_name name -> exists ms, match_g illegal_name_class name = Some ms.
Proof.
  intros (c & Hin & Hc). unfold match_g.
  destruct (List.filter _ name) as [|m ms] eqn:Hf; [|eauto].
  exfalso.
  assert (Hm : In c (List.filter (class_matches illegal_name_class) name)).
  { apply filter_In. split; [by apply list_elem_of_In|by apply class_matches_illegal]. }
  rewrite Hf in Hm. destruct Hm.
Qed.

(** The converse: the class matches nothing but the listed characters. *)
Lemma matches_illegal_name name ms :
  match_g illegal_name_class name = Some ms -> illegal_name name.
Proof.
  unfold match_g. destruct (List.filter _ name) as [|c cs] eqn:Hf; [discriminate|].
  intros _.
  assert (Hc : In c (List.filter (class_matches illegal_name_class) name))
    by (rewrite Hf; left; reflexivity).
  apply filter_In in Hc as [Hin Hm].
  exists c. split; [by apply list_elem_of_In|by apply class_matches_illegal].
Qed.

(** ** The manifest patch *)

Section Patch.

Variable name : jsstring.

Implicit Types (pkg : gmap (list N) json) (info : list (list N * list N)).
Implicit Types (item : list N) (v : list N).

Lemma obj_set_lookup item x pkg :
  obj_set item x pkg !! item = assigned item x (pkg !! item).
Proof.
  unfold obj_set, assigned. case_decide.
  - destruct (pkg !! item) eqn:Hl; [by rewrite lookup_insert_eq|done].
  - by rewrite lookup_insert_eq.
Qed.

Lemma obj_set_lookup_ne item x pkg k :
  k ≠ item -> obj_set item x pkg !! k = pkg !! k.
Proof.
  intros Hne. unfold obj_set.
  case_decide; [destruct (pkg !! item)|]; try done; by rewrite lookup_insert_ne.
Qed.

Lemma obj_set_plain item x pkg :
  item ≠ jstr "__proto__" -> obj_set item x pkg !! item = Some x.
Proof.
  intros Hne. rewrite obj_set_lookup. unfold assigned. by case_decide.
Qed.

(** The callback touches the property it is called for, and no other. *)
Lemma patch_field_lookup_ne pkg item v k :
  k ≠ item -> patch_field name pkg (item, v) !! k = pkg !! k.
Proof.
  intros Hne. unfold patch_field.
  repeat case_decide; try destruct (truthy v && truthy (trim v));
    try done; by apply obj_set_lookup_ne.
Qed.

(** What it leaves there depends on the object through that property only. *)
Lemma patch_field_lookup_congr pkg1 pkg2 item v :
  pkg1 !! item = pkg2 !! item ->
  patch_field name pkg1 (item, v) !! item = patch_field name pkg2 (item, v) !! item.
Proof.
  intros Heq. unfold patch_field.
  repeat case_decide; try destruct (truthy v && truthy (trim v));
    rewrite ?obj_set_lookup, ?Heq; done.
Qed.

Lemma applyPatch_cons pkg e info :
  applyPatch name (e :: info) pkg = applyPatch name info (patch_field name pkg e).
Proof. reflexivity. Qed.

(** Frame: a property the patch does not name keeps its value. *)
Lemma applyPatch_lookup_notin info pkg k :
  k ∉ Object_keys info -> applyPatch name info pkg !! k = pkg !! k.
Proof.
  revert pkg. induction info as [|[item v] info IH]; intros pkg Hk; [done|].
  unfold Object_keys in *. rewrite fmap_cons in Hk.
  apply not_elem_of_cons in Hk as [Hne Hk].
  rewrite applyPatch_cons, IH by done. by apply patch_field_lookup_ne.
Qed.

(** A property named by the patch ends as one call of the callback
    leaves it. *)
Lemma applyPatch_lookup_in info pkg item v :
  NoDup (Object_keys info) -> (item, v) ∈ info ->
  applyPatch name info pkg !! item = patch_field name pkg (item, v) !! item.
Proof.
  revert pkg. induction info as [|[item' v'] info IH]; intros pkg Hnd Hin.
  - by apply elem_of_nil in Hin.
  - unfold Object_keys in *. rewrite fmap_cons in Hnd.
    apply NoDup_cons in Hnd as [Hfresh Hnd].
    rewrite applyPatch_cons.
    apply elem_of_cons in Hin as [Heq|Hin].
    + injection Heq as <- <-. by apply applyPatch_lookup_notin.
    + assert (Hne : item ≠ item').
      { intros ->. apply Hfresh.
        apply list_elem_of_fmap. by exists (item', v). }
      rewrite IH by done.
      apply patch_field_lookup_congr. by apply patch_field_lookup_ne.
Qed.

(** The three branches of the callback, read at the property. *)
Lemma patch_field_name pkg v :
  patch_field name pkg (jstr "name", v) !! jstr "name"
  = Some (JStr (if truthy v && truthy (trim v) then trim v else name)).
Proof. unfold patch_field. rewrite decide_True by done. by apply obj_set_plain. Qed.

Lemma patch_field_keywords pkg v :
  patch_field name pkg (jstr "keywords", v) !! jstr "keywords"
  = Some (JArr (List.map JStr (split comma v))).
Proof.
  unfold patch_field. rewrite decide_False by done.
  rewrite decide_True by done. by apply obj_set_plain.
Qed.

Lemma patch_field_other_blank pkg item v :
  item ≠ jstr "name" -> item ≠ jstr "keywords" -> blank v ->
  patch_field name pkg (item, v) = pkg.
Proof.
  intros H1 H2 Hb. unfold patch_field.
  rewrite !decide_False by done. by rewrite blank_falsy.
Qed.

(** A value that is not blank is written as it is. *)
Lemma patch_field_other_value pkg item v :
  item ≠ jstr "name" -> item ≠ jstr "keywords" -> item ≠ jstr "__proto__" ->
  ~ blank v ->
  patch_field name pkg (item, v) !! item = Some (JStr v).
Proof.
  intros H1 H2 H3 Hnb. unfold patch_field.
  rewrite !decide_False by done. rewrite not_blank_truthy by done.
  by apply obj_set_plain.
Qed.

(** A property no entry would change is not changed. *)
Lemma applyPatch_unchanged info pkg k :
  (forall v, (k, v) ∈ info -> patch_field name pkg (k, v) !! k = pkg !! k) ->
  applyPatch name info pkg !! k = pkg !! k.
Proof.
  revert pkg. induction info as [|[item v] info IH]; intros pkg Hall; [done|].
  rewrite applyPatch_cons.
  assert (Hstep : patch_field name pkg (item, v) !! k = pkg !! k).
  { destruct (decide (k = item)) as [->|Hne].
    - apply Hall, list_elem_of_here.
    - by apply patch_field_lookup_ne. }
  rewrite IH; [done|].
  intros w Hw. rewrite Hstep, <- (Hall w) by (by apply list_elem_of_further).
  by apply patch_field_lookup_congr.
Qed.

Lemma blank_dec v : {blank v} + {~ blank v}.
Proof.
  destruct (forallb is_white_space v) eqn:Hf.
  - left. intros c Hc. rewrite forallb_forall in Hf.
    by apply Hf, list_elem_of_In.
  - right. intros Hb. apply not_true_iff_false in Hf. apply Hf.
    apply forallb_forall. intros c Hc. by apply Hb, list_elem_of_In.
Qed.

(** Either some entry for [k] is not blank, or all of them are. *)
Lemma entries_blank_or_not info k :
  (exists v, (k, v) ∈ info /\ ~ blank v) \/ (forall v, (k, v) ∈ info -> blank v).
Proof.
  induction info as [|[item v] info [(w & Hw & Hnb)|Hall]].
  - right. intros v Hv. by apply elem_of_nil in Hv.
  - left. exists w. split; [by apply list_elem_of_further|done].
  - destruct (decide (k = item)) as [->|Hne].
    + destruct (blank_dec v) as [Hb|Hnb].
      * right. intros w Hw. apply elem_of_cons in Hw as [Heq|Hw]; [|by apply Hall].
        by injection Heq as ->.
      * left. exists v. split; [apply list_elem_of_here|done].
    + right. intros w Hw. apply elem_of_cons in Hw as [Heq|Hw]; [|by apply Hall].
      by injection Heq as ? ?.
Qed.

End Patch.

(** Closing a decidable side condition on concrete data. *)
Ltac decide_by_computation :=
  apply (bool_decide_unpack _); vm_compute; exact I.

Ltac blank_by_computation :=
  apply trim_nil_iff; vm_compute; reflexivity.

(** C4: a blank [name] in the patch makes the manifest's [name] the project
    name.  For every manifest object [pkg] and every patch whose [name]
    entry is empty or white space only, the patched manifest has
    [name] equal to the project directory name. *)
Theorem C4_blank_name_falls_back
  (name : jsstring) (info : patch) (pkg : manifest) (v : jsstring) :
  NoDup (Object_keys info) ->
  (jstr "name", v) ∈ info ->
  blank v ->
  applyPatch name info pkg !! jstr "name" = Some (JStr name).
Proof.
  intros Hnd Hin Hb.
  rewrite (applyPatch_lookup_in name info pkg _ v Hnd Hin).
  rewrite patch_field_name. by rewrite blank_falsy.
Qed.

Lemma C4_witness :
  applyPatch Demo.myapp Demo.answers Demo.shipped !! jstr "name"
  = Some (JStr Demo.myapp).
Proof.
  apply (C4_blank_name_falls_back Demo.myapp Demo.answers Demo.shipped (jstr "  ")).
  - decide_by_computation.
  - decide_by_computation.
  - blank_by_computation.
Defined.

(** C5: [keywords] is split on commas, in order.  For every manifest
    object, a patch whose [keywords] entry is the string [a,b,c] yields a
    manifest whose [keywords] is the list of [a], [b] and [c], in that
    order. *)
Theorem C5_keywords_split_in_order
  (name : jsstring) (info : patch) (pkg : manifest) :
  NoDup (Object_keys info) ->
  (jstr "keywords", jstr "a,b,c") ∈ info ->
  applyPatch name info pkg !! jstr "keywords"
  = Some (JArr [JStr (jstr "a"); JStr (jstr "b"); JStr (jstr "c")]).
Proof.
  intros Hnd Hin.
  rewrite (applyPatch_lookup_in name info pkg _ _ Hnd Hin).
  by rewrite patch_field_keywords.
Qed.

Lemma C5_witness :
  applyPatch Demo.myapp Demo.answers Demo.shipped !! jstr "keywords"
  = Some (JArr [JStr (jstr "a"); JStr (jstr "b"); JStr (jstr "c")]).
Proof.
  apply (C5_keywords_split_in_order Demo.myapp Demo.answers Demo.shipped).
  - decide_by_computation.
  - decide_by_computation.
Defined.

(** C6: blank values of the other fields are skipped.  For every manifest
    object and every patch field other than [name] and [keywords]: when the
    value given for it is empty or white space only, the manifest keeps
    what it had under that field (nothing included); and a field whose
    content did change was given a value that is not blank. *)
Theorem C6_blank_values_skipped
  (name : jsstring) (info : patch) (pkg : manifest) (item : jsstring) :
  NoDup (Object_keys info) ->
  item ≠ jstr "name" ->
  item ≠ jstr "keywords" ->
  (forall v, (item, v) ∈ info -> blank v ->
     applyPatch name info pkg !! item = pkg !! item)
  /\ (applyPatch name info pkg !! item ≠ pkg !! item ->
      exists v, (item, v) ∈ info /\ ~ blank v).
Proof.
  intros Hnd Hn Hk. split.
  - intros v Hin Hb.
    rewrite (applyPatch_lookup_in name info pkg _ v Hnd Hin).
    by rewrite patch_field_other_blank.
  - intros Hch.
    destruct (entries_blank_or_not info item) as [Hex|Hall]; [done|].
    exfalso. apply Hch, applyPatch_unchanged.
    intros v Hv. rewrite patch_field_other_blank; auto.
Qed.

Lemma C6_witness :
  (forall v, (jstr "description", v) ∈ Demo.answers -> blank v ->
     applyPatch Demo.myapp Demo.answers Demo.shipped !! jstr "description"
     = Demo.shipped !! jstr "description")
  /\ (applyPatch Demo.myapp Demo.answers Demo.shipped !! jstr "description"
      ≠ Demo.shipped !! jstr "description" ->
      exists v, (jstr "description", v) ∈ Demo.answers /\ ~ blank v).
Proof.
  apply (C6_blank_values_skipped Demo.myapp Demo.answers Demo.shipped
           (jstr "description")).
  - decide_by_computation.
  - decide_by_computation.
  - decide_by_computation.
Defined.

Example description_kept :
  applyPatch Demo.myapp Demo.answers Demo.shipped !! jstr "description"
  = Some (JStr (jstr "A starter")).
Proof. vm_compute. reflexivity. Qed.

(** C7: the empty patch changes nothing, and no patch changes a field it
    does not name.  For every manifest object, applying the patch without
    entries returns the same object; and for every patch, a field that is
    not among its keys has after the patch the content it had before. *)
Theorem C7_unnamed_fields_untouched (name : jsstring) (pkg : manifest) :
  applyPatch name [] pkg = pkg
  /\ forall (info : patch) (item : jsstring),
       item ∉ Object_keys info ->
       applyPatch name info pkg !! item = pkg !! item.
Proof.
  split; [reflexivity|].
  intros info item Hnot. by apply applyPatch_lookup_notin.
Qed.

Lemma C7_witness :
  (jstr "version" ∉ Object_keys Demo.answers)
  /\ applyPatch Demo.myapp Demo.answers Demo.shipped !! jstr "version"
     = Demo.shipped !! jstr "version".
Proof.
  assert (Hnot : jstr "version" ∉ Object_keys Demo.answers)
    by decide_by_computation.
  split; [exact Hnot|].
  exact (proj2 (C7_unnamed_fields_untouched Demo.myapp Demo.shipped)
           Demo.answers (jstr "version") Hnot).
Defined.

(** C9: the empty [keywords] string is not skipped.  For every manifest
    object, a patch whose [keywords] entry is the empty string sets the
    manifest's [keywords] to the list with the empty string as its only
    element, whatever was there before. *)
Theorem C9_empty_keywords_overwrite
  (name : jsstring) (info : patch) (pkg : manifest) :
  NoDup (Object_keys info) ->
  (jstr "keywords", []) ∈ info ->
  applyPatch name info pkg !! jstr "keywords" = Some (JArr [JStr []]).
Proof.
  intros Hnd Hin.
  rewrite (applyPatch_lookup_in name info pkg _ _ Hnd Hin).
  by rewrite patch_field_keywords.
Qed.

Lemma C9_witness :
  let pkg : manifest := <[jstr "keywords" := JArr [JStr (jstr "cli")]]> Demo.shipped in
  (pkg !! jstr "keywords" = Some (JArr [JStr (jstr "cli")])
   /\ applyPatch Demo.myapp [(jstr "keywords", [])] pkg !! jstr "keywords"
      = Some (JArr [JStr []])).
Proof.
  split; [vm_compute; reflexivity|].
  apply (C9_empty_keywords_overwrite Demo.myapp [(jstr "keywords", [])]).
  - decide_by_computation.
  - decide_by_computation.
Defined.

(** ** The workflow *)

Section Runs.

Context {FS : Type} (E : Env FS).

Implicit Types (name : list N) (o : Options) (fs : FS).

Lemma bind_run {A B} (m : M FS A) (k : A -> M FS B) fs :
  bind m k fs
  = match m fs with
    | (Val a, fs1, t1) => let '(r, fs2, t2) := k a fs1 in (r, fs2, t1 ++ t2)
    | (Returned, fs1, t1) => (Returned, fs1, t1)
    | (Throw e, fs1, t1) => (Throw e, fs1, t1)
    | (Exit c, fs1, t1) => (Exit c, fs1, t1)
    end.
Proof. reflexivity. Qed.

Local Arguments bind : simpl never.

(** *** The helpers of utils.js and gitClone.js *)

(** [removeDir] completes whatever [fs.remove] does. *)
Lemma removeDir_run dir fs :
  removeDir E dir fs
  = (Val tt, (fs_remove E (resolveApp E dir) fs).1,
     ESpinStart (TxtRemoving dir) :: ERemove (resolveApp E dir) ::
     match (fs_remove E (resolveApp E dir) fs).2 with
     | None => [ESpinSucceed (TxtRemoved dir)]
     | Some err => [ESpinFail (TxtRemoveFailed dir); EConsole (TxtError err)]
     end).
Proof.
  unfold removeDir, function_body, try_catch, remove, bind.
  simpl. by destruct (fs_remove E (resolveApp E dir) fs) as [fs1 [err|]].
Qed.

(** Steps 5 to 7 begin with the clone, however they end. *)
Lemma fetch_and_finish_starts name o repo fs :
  exists r fs' t,
    fetch_and_finish E name o repo fs
    = (r, fs', ESpinStart TxtPulling :: EDownload repo name :: t).
Proof.
  unfold fetch_and_finish. rewrite bind_run.
  unfold try_catch, clone. rewrite bind_run. simpl.
  destruct (download E repo name fs) as [fs1 [err|]]; simpl.
  - eauto.
  - match goal with |- context [bind ?m ?k fs1] => destruct (bind m k fs1) as [[r fs2] t2] end.
    eauto.
Qed.

(** *** The ways through steps 1 to 3 *)

Lemma initAction_without_git name o fs :
  which_git E = false ->
  initAction E name o fs = (Exit 1, fs, [EConsole TxtNeedGit]).
Proof.
  intros Hgit. unfold initAction, function_body.
  rewrite bind_run, Hgit. simpl. by rewrite ?bind_run.
Qed.

Lemma initAction_name_rejected name o fs ms :
  which_git E = true ->
  match_g illegal_name_class name = Some ms ->
  initAction E name o fs = (Val tt, fs, [EConsole TxtIllegalName]).
Proof.
  intros Hgit Hname. unfold initAction, function_body.
  rewrite bind_run, Hgit. simpl.
  rewrite bind_run, Hname. simpl. by rewrite ?bind_run.
Qed.

Lemma initAction_unknown_template name o fs :
  which_git E = true ->
  match_g illegal_name_class name = None ->
  template_truthy (template o) = true ->
  List.find (name_is (template o)) (templates E) = None ->
  initAction E name o fs
  = (Val tt, fs, [EConsole (TxtNoSuchTemplate (template o)); EConsole TxtRunList]).
Proof.
  intros Hgit Hname Ht Hfind. unfold initAction, function_body.
  rewrite bind_run, Hgit. simpl.
  rewrite bind_run, Hname. simpl.
  rewrite bind_run, Ht, Hfind. simpl. by rewrite ?bind_run.
Qed.

Lemma initAction_prompt_rejected name o fs err :
  which_git E = true ->
  match_g illegal_name_class name = None ->
  template_truthy (template o) = false ->
  answer_choose E TxtChooseTemplate (templates E) = inl err ->
  initAction E name o fs
  = (Throw err, fs, [EChoose TxtChooseTemplate (templates E)]).
Proof.
  intros Hgit Hname Ht Hch. unfold initAction, function_body.
  rewrite bind_run, Hgit. simpl.
  rewrite bind_run, Hname. simpl.
  rewrite bind_run, Ht. unfold inquirerChoose. rewrite bind_run, Hch. by simpl.
Qed.

(** With a repository in hand the action goes on with steps 4 to 7. *)
Lemma initAction_from_step4 name o fs repo t0 :
  which_git E = true ->
  match_g illegal_name_class name = None ->
  template_resolved E o repo t0 ->
  initAction E name o fs
  = let '(r, fs', t) :=
      function_body
        (bind (clear_destination E name o) (fun _ => fetch_and_finish E name o repo)) fs
    in (r, fs', t0 ++ t).
Proof.
  intros Hgit Hname Htpl. unfold initAction, function_body.
  rewrite bind_run, Hgit. simpl.
  rewrite bind_run, Hname. simpl.
  rewrite bind_run.
  destruct Htpl as [d Ht Hfind|repo Ht Hch].
  - rewrite Ht, Hfind. simpl.
    change (bind (bind (existsSync E _) _) _ fs)
      with (bind (clear_destination E name o)
              (fun _ => fetch_and_finish E name o (tpl_value d)) fs).
    by destruct (bind _ _ fs) as [[[] ?] ?].
  - rewrite Ht. unfold inquirerChoose. rewrite bind_run, Hch. simpl.
    change (bind (bind (existsSync E _) _) _ fs)
      with (bind (clear_destination E name o)
              (fun _ => fetch_and_finish E name o repo) fs).
    by destruct (bind _ _ fs) as [[[] ?] ?].
Qed.

(** *** Step 4 *)

Lemma clear_destination_absent name o fs :
  fs_existsSync E (resolveApp E name) fs = false ->
  fs_existsSync E name fs = false ->
  clear_destination E name o fs = (Val tt, fs, []).
Proof.
  intros H1 H2. unfold clear_destination, existsSync.
  rewrite bind_run, H1. simpl. by rewrite bind_run, H2.
Qed.

Lemma clear_destination_declined name o fs :
  fs_existsSync E (resolveApp E name) fs = true ->
  force o = false ->
  answer_confirm E (TxtDeleteFolder name) = inr false ->
  clear_destination E name o fs
  = (Returned, fs,
     [EConsole (TxtFolderExists name); EConfirm (TxtDeleteFolder name);
      EConsole (TxtSameNameFolder name)]).
Proof.
  intros Hex Hf Hans. unfold clear_destination, existsSync, inquirerConfirm.
  rewrite bind_run, Hex, Hf. simpl.
  rewrite ?bind_run. simpl. rewrite ?bind_run, Hans. simpl. by rewrite ?bind_run.
Qed.

Lemma clear_destination_removes name o fs :
  removal_due E name o fs ->
  clear_destination E name o fs
  = (Val tt, (fs_remove E (resolveApp E name) fs).1,
     EConsole (TxtFolderExists name)
     :: (if force o then [] else [EConfirm (TxtDeleteFolder name)])
     ++ ESpinStart (TxtRemoving name) :: ERemove (resolveApp E name)
     :: match (fs_remove E (resolveApp E name) fs).2 with
        | None => [ESpinSucceed (TxtRemoved name)]
        | Some err => [ESpinFail (TxtRemoveFailed name); EConsole (TxtError err)]
        end).
Proof.
  intros [(Hex & Hf & Hans)|(Hex & Hf)];
    unfold clear_destination, existsSync, inquirerConfirm; rewrite bind_run.
  - rewrite Hex, Hf. simpl. rewrite ?bind_run. simpl.
    rewrite ?bind_run, Hans. simpl. by rewrite removeDir_run.
  - rewrite Hf, andb_false_r. simpl. rewrite ?bind_run, Hex. simpl.
    rewrite ?bind_run. simpl. by rewrite removeDir_run.
Qed.

(** *** Side conditions of the name and template steps *)

Lemma legal_name_no_match name :
  ~ illegal_name name -> match_g illegal_name_class name = None.
Proof.
  intros Hleg. destruct (match_g illegal_name_class name) as [ms|] eqn:Hm; [|done].
  exfalso. by apply Hleg, (matches_illegal_name name ms).
Qed.

Lemma template_given_truthy t : template_given t -> template_truthy t = true.
Proof.
  intros [->|(s & Hs & ->)]; [done|]. simpl. by destruct s.
Qed.

Lemma unregistered_not_found ts t :
  unregistered ts t -> List.find (name_is t) ts = None.
Proof.
  intros Hun. destruct (List.find (name_is t) ts) as [d|] eqn:Hfind; [|done].
  exfalso. apply find_some in Hfind as [Hin Hname].
  apply (Hun d); [by apply list_elem_of_In|].
  unfold name_is in Hname. destruct t as [| |s]; try done.
  apply bool_decide_eq_true in Hname. by rewrite Hname.
Qed.

(** Step 3 either ends the action or yields a repository. *)
Lemma template_step_cases o :
  (template_truthy (template o) = true
   /\ List.find (name_is (template o)) (templates E) = None)
  \/ (template_truthy (template o) = false
      /\ exists err, answer_choose E TxtChooseTemplate (templates E) = inl err)
  \/ (exists repo t0, template_resolved E o repo t0 /\ mutations t0 = []).
Proof.
  destruct (template_truthy (template o)) eqn:Ht.
  - destruct (List.find (name_is (template o)) (templates E)) as [d|] eqn:Hfind.
    + right. right. exists (tpl_value d), []. split; [by constructor|done].
    + by left.
  - destruct (answer_choose E TxtChooseTemplate (templates E)) as [err|repo] eqn:Hch.
    + right. left. eauto.
    + right. right. exists repo, [EChoose TxtChooseTemplate (templates E)].
      split; [by constructor|done].
Qed.

Lemma mutations_app t1 t2 : mutations (t1 ++ t2) = mutations t1 ++ mutations t2.
Proof. apply List.filter_app. Qed.

(** *** The scenario [create <name> --template <t> --ignore] on a clean
    directory *)
Lemma create_ignore_run name o fs d fs1 fs2 :
  which_git E = true ->
  ~ illegal_name name ->
  template_truthy (template o) = true ->
  List.find (name_is (template o)) (templates E) = Some d ->
  fs_existsSync E (resolveApp E name) fs = false ->
  fs_existsSync E name fs = false ->
  ignore o = true ->
  download E (tpl_value d) name fs = (fs1, None) ->
  shell_exec E (install_command E name) fs1 = (fs2, 0%Z) ->
  initAction E name o fs
  = (Exit 1, fs2,
     [ESpinStart TxtPulling; EDownload (tpl_value d) name; ESpinSucceed TxtPulled;
      EExec (install_command E name);
      ESpinSucceed TxtInstalled; ESpinSucceed TxtCreated]).
Proof.
  intros Hgit Hname Ht Hfind Hex1 Hex2 Hig Hdl Hsh.
  rewrite (initAction_from_step4 name o fs (tpl_value d) []);
    [|done|by apply legal_name_no_match|by constructor].
  unfold function_body. rewrite bind_run, clear_destination_absent by done.
  unfold fetch_and_finish, try_catch, clone, npmInstall, exec_code.
  rewrite ?bind_run. simpl. rewrite Hdl. simpl.
  rewrite ?bind_run, Hig. simpl. rewrite ?bind_run, Hsh. simpl.
  by rewrite ?bind_run.
Qed.

Lemma no_match_legal name :
  match_g illegal_name_class name = None -> ~ illegal_name name.
Proof.
  intros Hm Hill. destruct (illegal_name_matches name Hill) as [ms Hms]. congruence.
Qed.

(** *** The claims about the orchestrator *)

(** C2 (amended): a project name with a listed character is rejected
    before anything is touched.  For every project name with a code unit of
    the range U+4E00-U+9FFF or one of the twenty-one listed special
    characters: when git is installed, the action prints the rejection and
    returns; when git is not installed, the process exits with status 1 at
    the environment check, before the name is looked at; and in every case
    the run ends with the file system as it was and without a removal, a
    clone, a manifest write or an install. *)
Theorem C2_illegal_name_no_mutation name o fs :
  illegal_name name ->
  (which_git E = true ->
   initAction E name o fs = (Val tt, fs, [EConsole TxtIllegalName]))
  /\ (which_git E = false ->
      initAction E name o fs = (Exit 1, fs, [EConsole TxtNeedGit]))
  /\ (forall r fs' t,
        initAction E name o fs = (r, fs', t) -> fs' = fs /\ mutations t = []).
Proof.
  intros Hill. destruct (illegal_name_matches name Hill) as [ms Hms].
  split; [|split].
  - intros Hgit. by apply (initAction_name_rejected name o fs ms).
  - intros Hgit. by apply initAction_without_git.
  - intros r fs' t. destruct (which_git E) eqn:Hgit.
    + rewrite (initAction_name_rejected name o fs ms) by done.
      by intros [= <- <- <-].
    + rewrite initAction_without_git by done. by intros [= <- <- <-].
Qed.

(** C3 (amended): an unknown template ends the action before the clone.
    For every [--template] that is the bare flag or a value other than the
    empty string, and that names no registered template: when git is
    installed and the project name is legal, the action prints that the
    template does not exist, prints the hint at the [list] command and
    returns; when git is installed and the name is illegal, it prints the
    name rejection and returns; when git is not installed, the process
    exits with status 1 at the environment check; and in every case the
    run ends with the file system as it was and without a removal, a clone,
    a manifest write or an install.  A [--template] with the empty string
    as its value runs exactly as an absent [--template] does. *)
Theorem C3_unknown_template_returns name o fs :
  template_given (template o) ->
  unregistered (templates E) (template o) ->
  (which_git E = true -> ~ illegal_name name ->
   initAction E name o fs
   = (Val tt, fs, [EConsole (TxtNoSuchTemplate (template o)); EConsole TxtRunList]))
  /\ (which_git E = true -> illegal_name name ->
      initAction E name o fs = (Val tt, fs, [EConsole TxtIllegalName]))
  /\ (which_git E = false ->
      initAction E name o fs = (Exit 1, fs, [EConsole TxtNeedGit]))
  /\ (forall r fs' t,
        initAction E name o fs = (r, fs', t) -> fs' = fs /\ mutations t = [])
  /\ (forall f i,
        initAction E name {| template := TplValue []; force := f; ignore := i |} fs
        = initAction E name {| template := TplAbsent; force := f; ignore := i |} fs).
Proof.
  intros Hgiven Hun.
  apply template_given_truthy in Hgiven. apply unregistered_not_found in Hun.
  split; [|split; [|split; [|split]]].
  - intros Hgit Hleg. apply initAction_unknown_template; auto using legal_name_no_match.
  - intros Hgit Hill. destruct (illegal_name_matches name Hill) as [ms Hms].
    by apply (initAction_name_rejected name o fs ms).
  - intros Hgit. by apply initAction_without_git.
  - intros r fs' t. destruct (which_git E) eqn:Hgit.
    + destruct (match_g illegal_name_class name) as [ms|] eqn:Hm.
      * rewrite (initAction_name_rejected name o fs ms) by done.
        by intros [= <- <- <-].
      * rewrite initAction_unknown_template by done. by intros [= <- <- <-].
    + rewrite initAction_without_git by done. by intros [= <- <- <-].
  - intros f i. reflexivity.
Qed.

(** C8: declining the deletion leaves everything as it was.  When the
    destination exists, [--force] is not given and the user answers no to
    the confirmation: a run that reaches the destination check prints that
    the folder exists, asks, prints the failure and returns; and in every
    case the run ends with the file system as it was and without a removal,
    a clone, a manifest write or an install. *)
Theorem C8_declined_deletion_returns name o fs :
  fs_existsSync E (resolveApp E name) fs = true ->
  force o = false ->
  answer_confirm E (TxtDeleteFolder name) = inr false ->
  (forall repo t0,
     which_git E = true -> ~ illegal_name name -> template_resolved E o repo t0 ->
     initAction E name o fs
     = (Val tt, fs,
        t0 ++ [EConsole (TxtFolderExists name); EConfirm (TxtDeleteFolder name);
               EConsole (TxtSameNameFolder name)]))
  /\ (forall r fs' t,
        initAction E name o fs = (r, fs', t) -> fs' = fs /\ mutations t = []).
Proof.
  intros Hex Hf Hans.
  assert (Hpath : forall repo t0,
    which_git E = true -> match_g illegal_name_class name = None ->
    template_resolved E o repo t0 ->
    initAction E name o fs
    = (Val tt, fs,
       t0 ++ [EConsole (TxtFolderExists name); EConfirm (TxtDeleteFolder name);
              EConsole (TxtSameNameFolder name)])).
  { intros repo t0 Hgit Hm Htpl.
    rewrite (initAction_from_step4 name o fs repo t0) by done.
    unfold function_body. by rewrite bind_run, clear_destination_declined. }
  split.
  - intros repo t0 Hgit Hleg Htpl. apply (Hpath repo t0); auto using legal_name_no_match.
  - intros r fs' t. destruct (which_git E) eqn:Hgit.
    + destruct (match_g illegal_name_class name) as [ms|] eqn:Hm.
      * rewrite (initAction_name_rejected name o fs ms) by done.
        by intros [= <- <- <-].
      * destruct (template_step_cases o)
          as [[Ht Hfind]|[[Ht [err Hch]]|(repo & t0 & Htpl & Ht0)]].
        -- rewrite initAction_unknown_template by done. by intros [= <- <- <-].
        -- rewrite (initAction_prompt_rejected name o fs err) by done.
           by intros [= <- <- <-].
        -- rewrite (Hpath repo t0) by done. intros [= <- <- <-].
           split; [done|]. by rewrite mutations_app, Ht0.
    + rewrite initAction_without_git by done. by intros [= <- <- <-].
Qed.

(** C10: a failed removal does not stop the action.  [removeDir] always
    completes, with the file system as [fs.remove] left it, whether the
    removal succeeded or threw; and a run that reaches the destination
    check with a removal due attempts the removal, reports its outcome
    (success, or failure with the error logged) and then starts the clone
    of the chosen repository into the project folder. *)
Theorem C10_removal_failure_not_propagated name o fs :
  (forall dir fs0,
     exists t,
       removeDir E dir fs0 = (Val tt, (fs_remove E (resolveApp E dir) fs0).1, t))
  /\ (forall repo t0,
        which_git E = true -> ~ illegal_name name -> template_resolved E o repo t0 ->
        removal_due E name o fs ->
        exists r fs' t3,
          initAction E name o fs
          = (r, fs',
             t0 ++ EConsole (TxtFolderExists name)
             :: (if force o then [] else [EConfirm (TxtDeleteFolder name)])
             ++ ESpinStart (TxtRemoving name) :: ERemove (resolveApp E name)
             :: match (fs_remove E (resolveApp E name) fs).2 with
                | None => [ESpinSucceed (TxtRemoved name)]
                | Some err =>
                    [ESpinFail (TxtRemoveFailed name); EConsole (TxtError err)]
                end
             ++ ESpinStart TxtPulling :: EDownload repo name :: t3)).
Proof.
  split.
  - intros dir fs0. rewrite removeDir_run. eauto.
  - intros repo t0 Hgit Hleg Htpl Hdue.
    rewrite (initAction_from_step4 name o fs repo t0);
      [|done|by apply legal_name_no_match|done].
    unfold function_body. rewrite bind_run, clear_destination_removes by done.
    destruct (fetch_and_finish_starts name o repo
                (fs_remove E (resolveApp E name) fs).1) as (r & fs' & t & ->).
    exists (match r with Returned => Val tt | other => other end), fs', t.
    by destruct r, (force o), (fs_remove E (resolveApp E name) fs).2.
Qed.

End Runs.

(** ** The scenarios on the concrete world *)

Lemma C2_witness :
  initAction (Demo.env true true) [0x4E2D; 0x6587] Demo.vue_only Demo.clean
  = (Val tt, Demo.clean, [EConsole TxtIllegalName]).
Proof.
  apply (C2_illegal_name_no_mutation (Demo.env true true) [0x4E2D; 0x6587]
           Demo.vue_only Demo.clean).
  - exists 0x4E2D. split; [decide_by_computation|]. left. unfold cjk. lia.
  - reflexivity.
Defined.

(** C1: [create myapp --template vue --ignore] on a clean directory.  The
    template is found, the clone is called with the locator of [vue] and
    the path [myapp], no manifest question is asked and nothing is written,
    the install command runs in the project folder and succeeds, and the
    process is ended by [shell.exit(1)]: its exit status is 1. *)
Theorem C1_create_vue_ignore_exits_with_1 :
  let '(r, _, t) :=
    initAction (Demo.env true true) Demo.myapp Demo.vue_ignore Demo.clean in
  t = [ESpinStart TxtPulling;
       EDownload (tpl_value Demo.vue) Demo.myapp;
       ESpinSucceed TxtPulled;
       EExec (jstr "cd /home/dev/myapp && npm install --force");
       ESpinSucceed TxtInstalled; ESpinSucceed TxtCreated]
  /\ exit_status r = Some 1%Z.
Proof.
  rewrite (create_ignore_run (Demo.env true true) Demo.myapp Demo.vue_ignore
             Demo.clean Demo.vue
             (download (Demo.env true true) (tpl_value Demo.vue) Demo.myapp Demo.clean).1
             (download (Demo.env true true) (tpl_value Demo.vue) Demo.myapp Demo.clean).1);
    try reflexivity.
  - by split.
  - apply no_match_legal. reflexivity.
Qed.

(** C2 as stated fails twice.  The name made of U+3400, a CJK ideograph
    outside the range of the check, is not rejected: the template is cloned
    and the install runs.  And without git the name [my.app] is not
    rejected either: the process exits with status 1 at the environment
    check. *)
Lemma C2_counterexample :
  let run := initAction (Demo.env true true) [0x3400] Demo.vue_ignore Demo.clean in
  ~ illegal_name [0x3400]
  /\ run.1.1 = Exit 1
  /\ run.2 = [ESpinStart TxtPulling;
              EDownload (tpl_value Demo.vue) [0x3400];
              ESpinSucceed TxtPulled;
              EExec (jstr "cd /home/dev/" ++ [0x3400] ++ jstr " && npm install --force");
              ESpinSucceed TxtInstalled; ESpinSucceed TxtCreated]
  /\ illegal_name (jstr "my.app")
  /\ initAction Faulty.without_git (jstr "my.app") Demo.vue_ignore Demo.clean
     = (Exit 1, Demo.clean, [EConsole TxtNeedGit]).
Proof.
  split; [apply no_match_legal; reflexivity|].
  split; [vm_compute; reflexivity|]. split; [vm_compute; reflexivity|].
  split.
  - exists (N_of_ascii "."). split; decide_by_computation || (right; decide_by_computation).
  - by apply initAction_without_git.
Qed.

(** C3 as stated fails three times.  [--template ""] names no registered
    template, yet no hint is printed: the template is asked for and the
    clone runs.  Without git an unknown template gets no hint: the process
    exits with status 1.  With the illegal name [my.app] an unknown
    template gets no hint: the name is rejected. *)
Lemma C3_counterexample :
  let E := Demo.env true true in
  let run := initAction E Demo.myapp Demo.empty_template Demo.clean in
  which_git E = true
  /\ ~ illegal_name Demo.myapp
  /\ unregistered (templates E) (template Demo.empty_template)
  /\ run.1.1 = Exit 1
  /\ run.2 = [EChoose TxtChooseTemplate [Demo.vue; Demo.react];
              ESpinStart TxtPulling;
              EDownload (tpl_value Demo.react) Demo.myapp;
              ESpinSucceed TxtPulled;
              EExec (jstr "cd /home/dev/myapp && npm install --force");
              ESpinSucceed TxtInstalled; ESpinSucceed TxtCreated]
  /\ unregistered (templates Faulty.without_git) (template Demo.angular)
  /\ initAction Faulty.without_git Demo.myapp Demo.angular Demo.clean
     = (Exit 1, Demo.clean, [EConsole TxtNeedGit])
  /\ initAction E (jstr "my.app") Demo.angular Demo.clean
     = (Val tt, Demo.clean, [EConsole TxtIllegalName]).
Proof.
  assert (Hun : forall t,
    (forall d, d ∈ [Demo.vue; Demo.react] -> t ≠ TplValue (tpl_name d)) ->
    unregistered [Demo.vue; Demo.react] t) by (intros t H; exact H).
  split; [reflexivity|]. split; [apply no_match_legal; reflexivity|].
  split.
  { apply Hun. intros d Hd.
    repeat (apply elem_of_cons in Hd as [->|Hd]); try discriminate.
    by apply elem_of_nil in Hd. }
  split; [vm_compute; reflexivity|]. split; [vm_compute; reflexivity|].
  split.
  { apply Hun. intros d Hd.
    repeat (apply elem_of_cons in Hd as [->|Hd]); try discriminate.
    by apply elem_of_nil in Hd. }
  split; [by apply initAction_without_git|].
  by apply (initAction_name_rejected _ _ _ _ [jstr "."]).
Qed.

Lemma C3_witness :
  initAction (Demo.env true true) Demo.myapp Demo.angular Demo.clean
  = (Val tt, Demo.clean,
     [EConsole (TxtNoSuchTemplate (TplValue (jstr "angular"))); EConsole TxtRunList]).
Proof.
  apply (C3_unknown_template_returns (Demo.env true true) Demo.myapp Demo.angular
           Demo.clean).
  - right. exists (jstr "angular"). split; [discriminate|reflexivity].
  - intros d Hd. simpl in Hd.
    repeat (apply elem_of_cons in Hd as [->|Hd]); try discriminate.
    by apply elem_of_nil in Hd.
  - reflexivity.
  - apply no_match_legal. reflexivity.
Defined.

Lemma C8_witness :
  initAction (Demo.env true false) Demo.myapp Demo.vue_only Demo.taken
  = (Val tt, Demo.taken,
     [EConsole (TxtFolderExists Demo.myapp); EConfirm (TxtDeleteFolder Demo.myapp);
      EConsole (TxtSameNameFolder Demo.myapp)]).
Proof.
  apply (proj1 (C8_declined_deletion_returns (Demo.env true false) Demo.myapp
                  Demo.vue_only Demo.taken
                  ltac:(vm_compute; reflexivity) eq_refl eq_refl)
           (tpl_value Demo.vue) []).
  - reflexivity.
  - apply no_match_legal. reflexivity.
  - apply (resolved_by_option _ _ Demo.vue); reflexivity.
Defined.

Lemma C10_witness :
  let E := Demo.env false true in
  (fs_remove E (resolveApp E Demo.myapp) Demo.taken).2 = Some (jstr "EPERM")
  /\ exists r fs' t3,
       initAction E Demo.myapp Demo.vue_force Demo.taken
       = (r, fs',
          [EConsole (TxtFolderExists Demo.myapp);
           ESpinStart (TxtRemoving Demo.myapp);
           ERemove (jstr "/home/dev/myapp");
           ESpinFail (TxtRemoveFailed Demo.myapp);
           EConsole (TxtError (jstr "EPERM"));
           ESpinStart TxtPulling;
           EDownload (tpl_value Demo.vue) Demo.myapp] ++ t3).
Proof.
  split; [reflexivity|].
  apply (proj2 (C10_removal_failure_not_propagated (Demo.env false true) Demo.myapp
                  Demo.vue_force Demo.taken)
           (tpl_value Demo.vue) []).
  - reflexivity.
  - apply no_match_legal. reflexivity.
  - apply (resolved_by_option _ _ Demo.vue); reflexivity.
  - right. split; [vm_compute; reflexivity|reflexivity].
Defined.

(** ** The manifest on disk *)

Section ManifestFile.

Context {FS : Type} (E : Env FS).

(** On an object the loop is [applyPatch] and never throws. *)
Lemma patch_document_object name info pkg :
  patch_document (assign_other E) name info (DocObject pkg)
  = inr (DocObject (applyPatch name info pkg)).
Proof.
  revert pkg. induction info as [|entry info IH]; intros pkg; [reflexivity|].
  simpl. by rewrite IH.
Qed.

(** With nothing to assign, the loop leaves what was read. *)
Lemma patch_document_nothing_to_assign name info v :
  (forall entry, entry ∈ info -> assignment name entry = None) ->
  patch_document (assign_other E) name info (DocOther v) = inr (DocOther v).
Proof.
  induction info as [|entry info IH]; intros Hnone; [reflexivity|].
  simpl. rewrite (Hnone entry) by apply list_elem_of_here.
  apply IH. intros e He. by apply Hnone, list_elem_of_further.
Qed.

(** The first assignment the engine refuses ends the loop. *)
Lemma patch_document_first_refusal name skipped entry rest v x err :
  (forall e, e ∈ skipped -> assignment name e = None) ->
  assignment name entry = Some x ->
  assign_other E v entry.1 x = inl err ->
  patch_document (assign_other E) name (skipped ++ entry :: rest) (DocOther v)
  = inl err.
Proof.
  intros Hnone Hx Herr. induction skipped as [|e skipped IH]; simpl.
  - by rewrite Hx, Herr.
  - rewrite (Hnone e) by apply list_elem_of_here.
    apply IH. intros e' He'. by apply Hnone, list_elem_of_further.
Qed.

(** On an object the callback is the assignment it computes. *)
Lemma patch_field_assignment name pkg entry :
  patch_field name pkg entry
  = match assignment name entry with
    | Some x => obj_set entry.1 x pkg
    | None => pkg
    end.
Proof.
  destruct entry as [item v]. unfold patch_field, assignment. simpl.
  repeat case_decide; try done. by destruct (truthy v && truthy (trim v)).
Qed.

(** When the loop completes, its result is written, and a failed write is
    reported only. *)
Lemma changePackageJson_patched name info fs doc doc' :
  fs_readJson E (resolveApp E (package_json name)) fs = inr doc ->
  patch_document (assign_other E) name info doc = inr doc' ->
  changePackageJson E name info fs
  = (Val tt,
     (fs_writeJson E (resolveApp E (package_json name)) doc' fs).1,
     EWriteJson (resolveApp E (package_json name)) doc'
     :: match (fs_writeJson E (resolveApp E (package_json name)) doc' fs).2 with
        | None => []
        | Some err => [EConsole TxtManifestFailed; EConsole (TxtError err)]
        end).
Proof.
  intros Hread Hloop.
  unfold changePackageJson, try_catch, readJson, writeJson, settle, bind.
  rewrite Hread. simpl. rewrite Hloop. simpl.
  by destruct (fs_writeJson E _ _ fs) as [fs1 [err|]].
Qed.

(** When the loop throws, the error is reported and nothing is written. *)
Lemma changePackageJson_loop_throws name info fs doc err :
  fs_readJson E (resolveApp E (package_json name)) fs = inr doc ->
  patch_document (assign_other E) name info doc = inl err ->
  changePackageJson E name info fs
  = (Val tt, fs, [EConsole TxtManifestFailed; EConsole (TxtError err)]).
Proof.
  intros Hread Hloop.
  unfold changePackageJson, try_catch, readJson, settle, bind.
  rewrite Hread. simpl. by rewrite Hloop.
Qed.

(** [changePackageJson] writes the patched object back, and never throws:
    a failed write is reported only. *)
Lemma changePackageJson_writes name info fs pkg :
  fs_readJson E (resolveApp E (package_json name)) fs = inr (DocObject pkg) ->
  changePackageJson E name info fs
  = (Val tt,
     (fs_writeJson E (resolveApp E (package_json name))
        (DocObject (applyPatch name info pkg)) fs).1,
     EWriteJson (resolveApp E (package_json name)) (DocObject (applyPatch name info pkg))
     :: match (fs_writeJson E (resolveApp E (package_json name))
                 (DocObject (applyPatch name info pkg)) fs).2 with
        | None => []
        | Some err => [EConsole TxtManifestFailed; EConsole (TxtError err)]
        end).
Proof.
  intros Hread.
  apply (changePackageJson_patched name info fs (DocObject pkg)); [done|].
  apply patch_document_object.
Qed.

(** An unreadable manifest is reported and left alone. *)
Lemma changePackageJson_unreadable name info fs err :
  fs_readJson E (resolveApp E (package_json name)) fs = inl err ->
  changePackageJson E name info fs
  = (Val tt, fs, [EConsole TxtManifestFailed; EConsole (TxtError err)]).
Proof.
  intros Hread. unfold changePackageJson, try_catch, readJson, bind.
  by rewrite Hread.
Qed.

End ManifestFile.

(** [create myapp --template vue] on a clean directory, with the answers of
    the concrete world: the manifest of the new project. *)
Example created_manifest :
  let '(_, disk, _) :=
    initAction (Demo.env true true) Demo.myapp Demo.vue_only Demo.clean in
  disk !! jstr "/home/dev/myapp/package.json"
  = Some (Demo.PackageJson
            (<[jstr "keywords" := JArr [JStr (jstr "a"); JStr (jstr "b"); JStr (jstr "c")]]>
               (<[jstr "name" := JStr (jstr "myapp")]> Demo.shipped))).
Proof. vm_compute. reflexivity. Qed.

(** * Further properties *)

(** ** [split] and [trim] *)

Lemma split_cons_inv sep s : exists piece rest, split sep s = piece :: rest.
Proof.
  destruct s as [|c s]; simpl; [eauto|].
  destruct (c =? sep); [eauto|]. destruct (split sep s); eauto.
Qed.

(** Joining the pieces with the separator gives the string back. *)
Lemma join_split sep s : join sep (split sep s) = s.
Proof.
  induction s as [|c s IH]; [reflexivity|].
  simpl. destruct (N.eqb_spec c sep) as [->|Hne].
  - destruct (split_cons_inv sep s) as (piece & rest & Hs).
    rewrite Hs in *. simpl. simpl in IH. by rewrite IH.
  - destruct (split_cons_inv sep s) as (piece & rest & Hs).
    rewrite Hs in *. simpl in *. destruct rest; simpl; by rewrite <- IH.
Qed.

(** No piece contains the separator. *)
Lemma split_pieces_free sep s : Forall (fun piece => sep ∉ piece) (split sep s).
Proof.
  induction s as [|c s IH]; simpl.
  - constructor; [apply not_elem_of_nil|constructor].
  - destruct (N.eqb_spec c sep) as [->|Hne].
    + constructor; [apply not_elem_of_nil|done].
    + destruct (split sep s) as [|piece rest].
      * constructor; [|constructor].
        apply not_elem_of_cons. split; [congruence|apply not_elem_of_nil].
      * apply Forall_cons in IH as [Hp Hrest]. constructor; [|done].
        apply not_elem_of_cons. split; [congruence|done].
Qed.

(** There is one piece more than there are separators. *)
Lemma split_length sep s :
  length (split sep s) = S (length (List.filter (fun c => c =? sep) s)).
Proof.
  induction s as [|c s IH]; [reflexivity|].
  simpl. destruct (c =? sep); simpl; [by rewrite IH|].
  destruct (split sep s); simpl in *; done.
Qed.

Lemma trimStart_head s c rest :
  trimStart s = c :: rest -> is_white_space c = false.
Proof.
  induction s as [|d s IH]; [discriminate|].
  simpl. destruct (is_white_space d) eqn:Hd; [done|]. by intros [= <- _].
Qed.

(** [trimEnd] cuts a blank end off. *)
Lemma trimEnd_prefix s : exists ws, s = trimEnd s ++ ws /\ blank ws.
Proof.
  unfold trimEnd. destruct (trimStart_suffix (rev s)) as (ws & Hs & Hws).
  exists (rev ws). split.
  - apply (f_equal (@rev N)) in Hs. by rewrite rev_involutive, rev_app_distr in Hs.
  - intros c Hc. apply Hws, list_elem_of_In, in_rev. by apply list_elem_of_In.
Qed.

(** [trim] takes blank ends off and leaves no white space at either end. *)
Lemma trim_spec s :
  exists front back,
    s = front ++ trim s ++ back /\ blank front /\ blank back
    /\ (forall c rest, trim s = c :: rest -> is_white_space c = false)
    /\ (forall c rest, trim s = rest ++ [c] -> is_white_space c = false).
Proof.
  destruct (trimStart_suffix s) as (front & Hs & Hfront).
  destruct (trimEnd_prefix (trimStart s)) as (back & Hu & Hback).
  exists front, back. fold (trim s) in Hu.
  split; [by rewrite <- Hu|]. split; [done|]. split; [done|]. split.
  - intros c rest Ht. rewrite Ht in Hu. simpl in Hu.
    by apply (trimStart_head s c (rest ++ back)).
  - intros c rest Ht. unfold trim, trimEnd in Ht.
    apply (f_equal (@rev N)) in Ht.
    rewrite rev_involutive, rev_app_distr in Ht. simpl in Ht.
    by apply (trimStart_head _ _ _ Ht).
Qed.

(** ** The callback of the patch, once more *)

Section PatchMore.

Variable name : jsstring.

Implicit Types (pkg : gmap (list N) json) (info : list (list N * list N)).
Implicit Types (item : list N) (v : list N).

Lemma patch_field_lookup_same pkg item v :
  patch_field name pkg (item, v) !! item = field_result name item v (pkg !! item).
Proof.
  unfold patch_field, field_result.
  repeat case_decide; try destruct (truthy v && truthy (trim v));
    by rewrite ?obj_set_lookup.
Qed.

Lemma assigned_idem item x old :
  assigned item x (assigned item x old) = assigned item x old.
Proof. unfold assigned. case_decide; [by destruct old|done]. Qed.

Lemma field_result_idem item v old :
  field_result name item v (field_result name item v old)
  = field_result name item v old.
Proof.
  unfold field_result.
  repeat case_decide; try destruct (truthy v && truthy (trim v));
    by rewrite ?assigned_idem.
Qed.

Lemma field_result_keeps item v old :
  is_Some old -> is_Some (field_result name item v old).
Proof.
  intros [x ->]. unfold field_result, assigned.
  repeat case_decide; try destruct (truthy v && truthy (trim v)); eauto.
Qed.

Lemma applyPatch_lookup_result info pkg item v :
  NoDup (Object_keys info) -> (item, v) ∈ info ->
  applyPatch name info pkg !! item = field_result name item v (pkg !! item).
Proof.
  intros Hnd Hin. rewrite (applyPatch_lookup_in name info pkg item v) by done.
  apply patch_field_lookup_same.
Qed.

Lemma key_entry info item :
  item ∈ Object_keys info -> exists v, (item, v) ∈ info.
Proof.
  intros Hin. apply list_elem_of_fmap in Hin as ([k v] & -> & Hin). eauto.
Qed.

End PatchMore.

(** ** What a patch does to a manifest *)

(** X1: patching twice is patching once.  For every manifest object and
    every patch (the entries of an object: distinct keys), applying the
    patch to the patched manifest changes nothing more. *)
Theorem X1_applyPatch_idempotent
  (name : jsstring) (info : patch) (pkg : manifest) :
  NoDup (Object_keys info) ->
  applyPatch name info (applyPatch name info pkg) = applyPatch name info pkg.
Proof.
  intros Hnd. apply map_eq. intros k.
  destruct (decide (k ∈ Object_keys info)) as [Hin|Hnot].
  - destruct (key_entry info k Hin) as [v Hv].
    rewrite (applyPatch_lookup_result name info _ k v) by done.
    rewrite (applyPatch_lookup_result name info pkg k v) by done.
    apply field_result_idem.
  - by rewrite (applyPatch_lookup_notin name info _ k).
Qed.

Lemma X1_witness :
  applyPatch Demo.myapp Faulty.padded (applyPatch Demo.myapp Faulty.padded Demo.shipped)
  = applyPatch Demo.myapp Faulty.padded Demo.shipped.
Proof.
  apply (X1_applyPatch_idempotent Demo.myapp Faulty.padded Demo.shipped).
  decide_by_computation.
Defined.

(** X2: a patch deletes nothing and adds nothing it does not name.  Every
    field the manifest has, it still has after the patch; and every field
    the patched manifest has was in the manifest or is a key of the
    patch. *)
Theorem X2_applyPatch_fields
  (name : jsstring) (info : patch) (pkg : manifest) (item : jsstring) :
  (is_Some (pkg !! item) -> is_Some (applyPatch name info pkg !! item))
  /\ (is_Some (applyPatch name info pkg !! item) ->
      is_Some (pkg !! item) \/ item ∈ Object_keys info).
Proof.
  split.
  - revert pkg. induction info as [|[k v] info IH]; intros pkg Hsome; [done|].
    rewrite applyPatch_cons. apply IH.
    destruct (decide (item = k)) as [->|Hne].
    + rewrite patch_field_lookup_same. by apply field_result_keeps.
    + by rewrite patch_field_lookup_ne.
  - intros Hsome. destruct (decide (item ∈ Object_keys info)) as [Hin|Hnot]; [by right|].
    left. by rewrite (applyPatch_lookup_notin name info pkg item) in Hsome.
Qed.

Lemma X2_witness :
  is_Some (applyPatch Demo.myapp Demo.answers Demo.shipped !! jstr "version")
  /\ (is_Some (Demo.shipped !! jstr "keywords")
      \/ jstr "keywords" ∈ Object_keys Demo.answers).
Proof.
  split.
  - apply (proj1 (X2_applyPatch_fields Demo.myapp Demo.answers Demo.shipped
                    (jstr "version"))).
    vm_compute. eauto.
  - apply (proj2 (X2_applyPatch_fields Demo.myapp Demo.answers Demo.shipped
                    (jstr "keywords"))).
    vm_compute. eauto.
Defined.

(** X3: the order of the answers does not matter.  Two patches with the
    same entries in different orders (distinct keys) give the same
    manifest. *)
Theorem X3_applyPatch_order_irrelevant
  (name : jsstring) (info info' : patch) (pkg : manifest) :
  NoDup (Object_keys info) ->
  info ≡ₚ info' ->
  applyPatch name info pkg = applyPatch name info' pkg.
Proof.
  intros Hnd Hperm.
  assert (Hnd' : NoDup (Object_keys info')).
  { unfold Object_keys in *. by rewrite <- Hperm. }
  assert (Hkeys : forall k, k ∈ Object_keys info <-> k ∈ Object_keys info').
  { intros k. unfold Object_keys. by rewrite Hperm. }
  apply map_eq. intros k.
  destruct (decide (k ∈ Object_keys info)) as [Hin|Hnot].
  - destruct (key_entry info k Hin) as [v Hv].
    rewrite (applyPatch_lookup_result name info pkg k v) by done.
    rewrite (applyPatch_lookup_result name info' pkg k v); [done|done|].
    by rewrite <- Hperm.
  - rewrite (applyPatch_lookup_notin name info pkg k) by done.
    rewrite (applyPatch_lookup_notin name info' pkg k); [done|].
    by rewrite <- Hkeys.
Qed.

Lemma X3_witness :
  applyPatch Demo.myapp Demo.answers Demo.shipped
  = applyPatch Demo.myapp (rev Demo.answers) Demo.shipped.
Proof.
  apply (X3_applyPatch_order_irrelevant Demo.myapp Demo.answers (rev Demo.answers)
           Demo.shipped).
  - decide_by_computation.
  - apply Permutation_rev.
Defined.

(** X4: a name that is not blank is stored trimmed.  For a patch whose
    [name] value has something other than white space, the manifest's
    [name] becomes the value without the white space at its two ends: what
    was cut off is blank, and what is stored is not empty and neither
    begins nor ends with white space. *)
Theorem X4_name_stored_trimmed
  (name : jsstring) (info : patch) (pkg : manifest) (v : jsstring) :
  NoDup (Object_keys info) ->
  (jstr "name", v) ∈ info ->
  ~ blank v ->
  exists front stored back,
    applyPatch name info pkg !! jstr "name" = Some (JStr stored)
    /\ v = front ++ stored ++ back /\ blank front /\ blank back
    /\ stored ≠ []
    /\ (forall c rest, stored = c :: rest -> is_white_space c = false)
    /\ (forall c rest, stored = rest ++ [c] -> is_white_space c = false).
Proof.
  intros Hnd Hin Hnb.
  destruct (trim_spec v) as (front & back & Hv & Hf & Hb & Hhead & Hlast).
  exists front, (trim v), back.
  rewrite (applyPatch_lookup_in name info pkg _ v Hnd Hin), patch_field_name.
  rewrite not_blank_truthy by done.
  repeat split; try done.
  intros Hnil. by apply Hnb, trim_nil_iff.
Qed.

Lemma X4_witness :
  exists front stored back,
    applyPatch Demo.myapp Faulty.padded Demo.shipped !! jstr "name" = Some (JStr stored)
    /\ jstr "  my-lib " = front ++ stored ++ back /\ blank front /\ blank back
    /\ stored ≠ []
    /\ (forall c rest, stored = c :: rest -> is_white_space c = false)
    /\ (forall c rest, stored = rest ++ [c] -> is_white_space c = false).
Proof.
  apply (X4_name_stored_trimmed Demo.myapp Faulty.padded Demo.shipped).
  - decide_by_computation.
  - decide_by_computation.
  - intros Hb. apply trim_nil_iff in Hb. vm_compute in Hb. discriminate.
Defined.

Example padded_name_stored :
  applyPatch Demo.myapp Faulty.padded Demo.shipped !! jstr "name"
  = Some (JStr (jstr "my-lib")).
Proof. vm_compute. reflexivity. Qed.

(** X5: the other fields are stored as typed.  For a field other than
    [name], [keywords] and [__proto__] whose value has something other than
    white space, the manifest gets the value unchanged, white space at its
    ends included: the test trims, the assignment does not. *)
Theorem X5_other_fields_stored_verbatim
  (name : jsstring) (info : patch) (pkg : manifest) (item v : jsstring) :
  NoDup (Object_keys info) ->
  (item, v) ∈ info ->
  item ≠ jstr "name" -> item ≠ jstr "keywords" -> item ≠ jstr "__proto__" ->
  ~ blank v ->
  applyPatch name info pkg !! item = Some (JStr v).
Proof.
  intros Hnd Hin H1 H2 H3 Hnb.
  rewrite (applyPatch_lookup_in name info pkg _ v Hnd Hin).
  by apply patch_field_other_value.
Qed.

Lemma X5_witness :
  applyPatch Demo.myapp Faulty.padded Demo.shipped !! jstr "license"
  = Some (JStr (jstr " MIT ")).
Proof.
  apply (X5_other_fields_stored_verbatim Demo.myapp Faulty.padded Demo.shipped).
  - decide_by_computation.
  - decide_by_computation.
  - decide_by_computation.
  - decide_by_computation.
  - decide_by_computation.
  - intros Hb. apply trim_nil_iff in Hb. vm_compute in Hb. discriminate.
Defined.

(** X6: the keywords written are the answer cut at its commas, and nothing
    else is done to them.  The manifest's [keywords] becomes a list of
    strings which, joined with commas, give the answer back; no keyword
    contains a comma; there is one keyword more than there are commas;
    so the list is never empty, and white space around a keyword stays. *)
Theorem X6_keywords_round_trip
  (name : jsstring) (info : patch) (pkg : manifest) (v : jsstring) :
  NoDup (Object_keys info) ->
  (jstr "keywords", v) ∈ info ->
  exists keywords,
    applyPatch name info pkg !! jstr "keywords" = Some (JArr (List.map JStr keywords))
    /\ join comma keywords = v
    /\ Forall (fun k => comma ∉ k) keywords
    /\ length keywords = S (length (List.filter (fun c => c =? comma) v)).
Proof.
  intros Hnd Hin. exists (split comma v).
  rewrite (applyPatch_lookup_in name info pkg _ v Hnd Hin), patch_field_keywords.
  split; [done|]. split; [apply join_split|].
  split; [apply split_pieces_free|apply split_length].
Qed.

Lemma X6_witness :
  exists keywords,
    applyPatch Demo.myapp Faulty.padded Demo.shipped !! jstr "keywords"
    = Some (JArr (List.map JStr keywords))
    /\ join comma keywords = jstr "cli, tool"
    /\ Forall (fun k => comma ∉ k) keywords
    /\ length keywords = S (length (List.filter (fun c => c =? comma) (jstr "cli, tool"))).
Proof.
  apply (X6_keywords_round_trip Demo.myapp Faulty.padded Demo.shipped).
  - decide_by_computation.
  - decide_by_computation.
Defined.

Example padded_keywords_stored :
  applyPatch Demo.myapp Faulty.padded Demo.shipped !! jstr "keywords"
  = Some (JArr [JStr (jstr "cli"); JStr (jstr " tool")]).
Proof. vm_compute. reflexivity. Qed.

(** ** Events of a computation *)

Section Traces.

Context {FS : Type} (E : Env FS).

Variable P : event -> Prop.

Lemma trace_all_ret {A} (a : A) : trace_all P (@ret FS A a).
Proof. intros fs. constructor. Qed.

Lemma trace_all_return_ {A} : trace_all P (@return_ FS A).
Proof. intros fs. constructor. Qed.

Lemma trace_all_throw {A} err : trace_all P (@throw FS A err).
Proof. intros fs. constructor. Qed.

Lemma trace_all_shell_exit {A} code : trace_all P (@shell_exit FS A code).
Proof. intros fs. constructor. Qed.

Lemma trace_all_settle {A} (r : list N + A) : trace_all P (@settle FS A r).
Proof. destruct r; [apply trace_all_throw|apply trace_all_ret]. Qed.

Lemma trace_all_emit e : P e -> trace_all P (@emit FS e).
Proof. intros He fs. by repeat constructor. Qed.

Lemma trace_all_console_log t : P (EConsole t) -> trace_all P (@console_log FS t).
Proof. apply trace_all_emit. Qed.

(** Sequencing: the continuation matters for the values the first part
    can complete with. *)
Lemma trace_all_bind {A B} (m : M FS A) (k : A -> M FS B) :
  trace_all P m ->
  (forall a, returns m a -> trace_all P (k a)) ->
  trace_all P (bind m k).
Proof.
  intros Hm Hk fs. unfold bind. specialize (Hm fs).
  destruct (m fs) as [[[a| |err|code] fs1] t1] eqn:Hrun; simpl in *; try done.
  assert (Hret : returns m a) by (by exists fs, fs1, t1).
  specialize (Hk a Hret fs1). destruct (k a fs1) as [[r fs2] t2]. simpl in *.
  by apply Forall_app.
Qed.

Lemma trace_all_try_catch {A} (m : M FS A) (h : list N -> M FS A) :
  trace_all P m -> (forall err, trace_all P (h err)) -> trace_all P (try_catch m h).
Proof.
  intros Hm Hh fs. unfold try_catch. specialize (Hm fs).
  destruct (m fs) as [[[a| |err|code] fs1] t1]; simpl in *; try done.
  specialize (Hh err fs1). destruct (h err fs1) as [[r fs2] t2]. simpl in *.
  by apply Forall_app.
Qed.

Lemma trace_all_function_body (m : M FS unit) :
  trace_all P m -> trace_all P (function_body m).
Proof.
  intros Hm fs. unfold function_body. specialize (Hm fs).
  by destruct (m fs) as [[[a| |err|code] fs1] t1].
Qed.

Lemma trace_all_existsSync path : trace_all P (existsSync E path).
Proof. intros fs. constructor. Qed.

Lemma trace_all_readJson path : trace_all P (readJson E path).
Proof. intros fs. constructor. Qed.

Lemma trace_all_remove path : P (ERemove path) -> trace_all P (remove E path).
Proof.
  intros He fs. unfold remove. destruct (fs_remove E path fs). by repeat constructor.
Qed.

Lemma trace_all_writeJson path pkg :
  P (EWriteJson path pkg) -> trace_all P (writeJson E path pkg).
Proof.
  intros He fs. unfold writeJson. destruct (fs_writeJson E path pkg fs).
  by repeat constructor.
Qed.

Lemma trace_all_exec_code command :
  P (EExec command) -> trace_all P (exec_code E command).
Proof.
  intros He fs. unfold exec_code. destruct (shell_exec E command fs).
  by repeat constructor.
Qed.

Lemma trace_all_inquirerConfirm message :
  P (EConfirm message) -> trace_all P (inquirerConfirm E message).
Proof.
  intros He. apply trace_all_bind; [by apply trace_all_emit|].
  intros _ _. apply trace_all_settle.
Qed.

Lemma trace_all_inquirerChoose message choices :
  P (EChoose message choices) -> trace_all P (inquirerChoose E message choices).
Proof.
  intros He. apply trace_all_bind; [by apply trace_all_emit|].
  intros _ _. apply trace_all_settle.
Qed.

Lemma trace_all_inquirerInputs qs :
  P (EInputs qs) -> trace_all P (inquirerInputs E qs).
Proof.
  intros He. apply trace_all_bind; [by apply trace_all_emit|].
  intros _ _. apply trace_all_settle.
Qed.

Lemma trace_all_clone remote name :
  P (ESpinStart TxtPulling) -> P (EDownload remote name) ->
  P (ESpinSucceed TxtPulled) -> (forall err, P (ESpinFail (TxtError err))) ->
  trace_all P (clone E remote name).
Proof.
  intros H1 H2 H3 H4. apply trace_all_bind; [by apply trace_all_emit|].
  intros _ _ fs. destruct (download E remote name fs) as [fs1 [err|]];
    by repeat constructor.
Qed.

Lemma trace_all_removeDir dir :
  P (ESpinStart (TxtRemoving dir)) -> P (ERemove (resolveApp E dir)) ->
  P (ESpinSucceed (TxtRemoved dir)) -> P (ESpinFail (TxtRemoveFailed dir)) ->
  (forall err, P (EConsole (TxtError err))) ->
  trace_all P (removeDir E dir).
Proof.
  intros H1 H2 H3 H4 H5 fs. rewrite removeDir_run. simpl.
  destruct (fs_remove E (resolveApp E dir) fs).2; by repeat constructor.
Qed.

Lemma trace_all_changePackageJson name info :
  (forall doc, P (EWriteJson (resolveApp E (package_json name)) doc)) ->
  P (EConsole TxtManifestFailed) -> (forall err, P (EConsole (TxtError err))) ->
  trace_all P (changePackageJson E name info).
Proof.
  intros H1 H2 H3. apply trace_all_try_catch.
  - apply trace_all_bind; [apply trace_all_readJson|].
    intros doc _. apply trace_all_bind; [apply trace_all_settle|].
    intros doc' _. by apply trace_all_writeJson.
  - intros err. apply trace_all_bind; [by apply trace_all_console_log|].
    intros _ _. by apply trace_all_console_log.
Qed.

Lemma trace_all_npmInstall dir :
  P (EExec (install_command E dir)) -> P (EConsole TxtInstallFailed) ->
  P (ESpinSucceed TxtInstalled) -> P (ESpinSucceed TxtCreated) ->
  trace_all P (npmInstall E dir).
Proof.
  intros H1 H2 H3 H4. apply trace_all_bind; [by apply trace_all_exec_code|].
  intros code _. apply trace_all_bind.
  - destruct (negb (code =? 0)%Z); [|apply trace_all_ret].
    apply trace_all_bind; [by apply trace_all_console_log|].
    intros _ _. apply trace_all_shell_exit.
  - intros _ _. apply trace_all_bind; [by apply trace_all_emit|].
    intros _ _. apply trace_all_bind; [by apply trace_all_emit|].
    intros _ _. apply trace_all_shell_exit.
Qed.

End Traces.

(** ** The events of [initAction] *)

Section Alphabet.

Context {FS : Type} (E : Env FS).

Implicit Types (name : list N) (o : Options) (fs : FS).

(** What step 3 completes with is a resolved repository. *)
Lemma step3_returns o repo :
  returns
    (if template_truthy (template o) then
       match List.find (name_is (template o)) (templates E) with
       | None =>
           bind (console_log (TxtNoSuchTemplate (template o)))
             (fun _ => bind (console_log TxtRunList) (fun _ => return_))
       | Some d => ret (tpl_value d)
       end
     else inquirerChoose E TxtChooseTemplate (templates E)) repo ->
  exists t0, template_resolved E o repo t0.
Proof.
  intros (fs & fs1 & t & Hrun).
  destruct (template_truthy (template o)) eqn:Ht.
  - destruct (List.find (name_is (template o)) (templates E)) as [d|] eqn:Hfind.
    + injection Hrun as <- _ _. exists []. by constructor.
    + discriminate Hrun.
  - unfold inquirerChoose, bind, emit, settle in Hrun.
    destruct (answer_choose E TxtChooseTemplate (templates E)) as [err|r] eqn:Hch;
      [discriminate Hrun|].
    injection Hrun as <- _ _. eexists. by constructor.
Qed.

(** Every event of every run is one [may_emit] allows. *)
Lemma initAction_alphabet name o :
  trace_all (may_emit E name o) (initAction E name o).
Proof.
  unfold initAction. apply trace_all_function_body.
  apply trace_all_bind.
  { destruct (which_git E) eqn:Hgit; simpl; [apply trace_all_ret|].
    apply trace_all_bind; [by apply trace_all_console_log|].
    intros _ _. apply trace_all_shell_exit. }
  intros _ _. apply trace_all_bind.
  { destruct (match_g illegal_name_class name) as [ms|] eqn:Hm; [|apply trace_all_ret].
    apply trace_all_bind; [|intros _ _; apply trace_all_return_].
    apply trace_all_console_log. simpl. by apply (matches_illegal_name name ms). }
  intros _ _. apply trace_all_bind.
  { destruct (template_truthy (template o)) eqn:Ht.
    - destruct (List.find (name_is (template o)) (templates E)); [apply trace_all_ret|].
      apply trace_all_bind; [by apply trace_all_console_log|].
      intros _ _. apply trace_all_bind; [by apply trace_all_console_log|].
      intros _ _. apply trace_all_return_.
    - by apply trace_all_inquirerChoose. }
  intros repository Hrepo. apply step3_returns in Hrepo.
  assert (Hrm : trace_all (may_emit E name o) (removeDir E name)).
  { apply trace_all_removeDir; simpl; auto. }
  apply trace_all_bind.
  { apply trace_all_bind; [apply trace_all_existsSync|].
    intros here _. destruct (here && negb (force o)) eqn:Hc.
    - apply andb_true_iff in Hc as [_ Hf]. apply negb_true_iff in Hf.
      apply trace_all_bind; [by apply trace_all_console_log|].
      intros _ _. apply trace_all_bind; [by apply trace_all_inquirerConfirm|].
      intros [|] _; [done|].
      apply trace_all_bind; [by apply trace_all_console_log|].
      intros _ _. apply trace_all_return_.
    - apply trace_all_bind; [apply trace_all_existsSync|].
      intros here' _. destruct (here' && force o); [|apply trace_all_ret].
      apply trace_all_bind; [by apply trace_all_console_log|]. by intros _ _. }
  intros _ _. apply trace_all_bind.
  { apply trace_all_try_catch.
    - apply trace_all_clone; simpl; eauto.
    - intros err. apply trace_all_bind; [by apply trace_all_console_log|].
      intros _ _. apply trace_all_bind; [by apply trace_all_console_log|].
      intros _ _. apply trace_all_shell_exit. }
  intros _ _. apply trace_all_bind.
  { destruct (ignore o) eqn:Hig; simpl; [apply trace_all_ret|].
    apply trace_all_bind; [by apply trace_all_inquirerInputs|].
    intros answers _. by apply trace_all_changePackageJson. }
  intros _ _. apply trace_all_npmInstall; simpl; auto.
Qed.

Lemma initAction_event name o fs e :
  e ∈ (initAction E name o fs).2 -> may_emit E name o e.
Proof.
  intros He. pose proof (initAction_alphabet name o fs) as Hall.
  rewrite Forall_forall in Hall. by apply Hall.
Qed.

(** X7: the arguments of the mutating calls.  In every run, for every name
    and all options: what is removed is the project name resolved against
    the application directory; the clone is given the project name as
    typed; the manifest written is [<name>/package.json] resolved against
    the application directory; and the only command line executed is
    [cd <pwd>/<name> && npm install --force], with the name inserted as
    typed, neither resolved nor quoted.  Where the shell takes that line is
    not stated. *)
Theorem X7_mutating_calls_arguments name o fs e :
  e ∈ (initAction E name o fs).2 ->
  match e with
  | ERemove path => path = path_resolve E (appDirectory E) name
  | EDownload _ dest => dest = name
  | EWriteJson path _ =>
      path = path_resolve E (appDirectory E) (name ++ jstr "/package.json")
  | EExec command =>
      command = jstr "cd " ++ shell_pwd E ++ jstr "/" ++ name
                ++ jstr " && npm install --force"
  | _ => True
  end.
Proof.
  intros He. apply initAction_event in He.
  destruct e; simpl in *; try tauto; by destruct He.
Qed.

(** X8: each option silences its prompt.  With [--force] no run asks for a
    confirmation; with [--ignore] no run asks the manifest questions or
    writes a manifest; with a [--template] the test of step 3 takes (the
    bare flag or a value that is not empty) no run asks for a template. *)
Theorem X8_options_silence_prompts name o fs e :
  e ∈ (initAction E name o fs).2 ->
  (force o = true -> forall t, e ≠ EConfirm t)
  /\ (ignore o = true ->
      (forall qs, e ≠ EInputs qs) /\ (forall path pkg, e ≠ EWriteJson path pkg))
  /\ (template_given (template o) -> forall t choices, e ≠ EChoose t choices).
Proof.
  intros He. apply initAction_event in He. split; [|split].
  - intros Hf t ->. simpl in He. destruct He as [_ He]. congruence.
  - intros Hig. split.
    + intros qs ->. simpl in He. destruct He as [_ He]. congruence.
    + intros path pkg ->. simpl in He. destruct He as [_ He]. congruence.
  - intros Hg t choices ->. apply template_given_truthy in Hg.
    simpl in He. destruct He as (_ & _ & He). congruence.
Qed.

(** X9: the name check rejects the illegal names and no others.  With git
    installed, a run prints the rejection exactly when the project name
    has a character of the range U+4E00-U+9FFF or one of the listed
    special characters; hyphens, underscores, slashes, spaces and all
    other characters pass. *)
Theorem X9_rejection_exact name o fs :
  which_git E = true ->
  (EConsole TxtIllegalName ∈ (initAction E name o fs).2 <-> illegal_name name).
Proof.
  intros Hgit. split.
  - intros He. by apply initAction_event in He.
  - intros Hill. destruct (illegal_name_matches name Hill) as [ms Hms].
    rewrite (initAction_name_rejected E name o fs ms) by done.
    apply list_elem_of_here.
Qed.

End Alphabet.

(** ** How a run ends *)

Section Outcomes.

Context {FS : Type} (E : Env FS).

Implicit Types (name : list N) (o : Options) (fs : FS).

Local Arguments bind : simpl never.

(** [npmInstall] ends the process with status 1 after either report. *)
Lemma npmInstall_run dir fs :
  npmInstall E dir fs
  = (Exit 1, (shell_exec E (install_command E dir) fs).1,
     EExec (install_command E dir)
     :: install_report (shell_exec E (install_command E dir) fs).2).
Proof.
  unfold npmInstall, exec_code, install_report, bind.
  destruct (shell_exec E (install_command E dir) fs) as [fs1 code]. simpl.
  by destruct (code =? 0)%Z.
Qed.

(** [changePackageJson] completes whatever reading and writing do. *)
Lemma changePackageJson_total name info fs :
  exists fs' t, changePackageJson E name info fs = (Val tt, fs', t).
Proof.
  destruct (fs_readJson E (resolveApp E (package_json name)) fs) as [err|doc] eqn:Hread.
  - rewrite (changePackageJson_unreadable E name info fs err) by done. eauto.
  - destruct (patch_document (assign_other E) name info doc) as [err|doc'] eqn:Hloop.
    + rewrite (changePackageJson_loop_throws E name info fs doc err) by done. eauto.
    + rewrite (changePackageJson_patched E name info fs doc doc') by done. eauto.
Qed.

(** Steps 5 to 7, by what the clone and the prompt do. *)
Lemma fetch_and_finish_offline name o repo fs fs1 err :
  download E repo name fs = (fs1, Some err) ->
  fetch_and_finish E name o repo fs
  = (Exit 1, fs1,
     [ESpinStart TxtPulling; EDownload repo name; ESpinFail (TxtError err);
      EConsole TxtCreateFailed; EConsole (TxtError err)]).
Proof.
  intros Hdl. unfold fetch_and_finish, try_catch, clone.
  rewrite !bind_run. simpl. rewrite Hdl. simpl. by rewrite ?bind_run.
Qed.

Lemma fetch_and_finish_ignore name o repo fs fs1 :
  download E repo name fs = (fs1, None) ->
  ignore o = true ->
  fetch_and_finish E name o repo fs
  = (Exit 1, (shell_exec E (install_command E name) fs1).1,
     [ESpinStart TxtPulling; EDownload repo name; ESpinSucceed TxtPulled;
      EExec (install_command E name)]
     ++ install_report (shell_exec E (install_command E name) fs1).2).
Proof.
  intros Hdl Hig. unfold fetch_and_finish, try_catch, clone.
  rewrite !bind_run. simpl. rewrite Hdl. simpl.
  rewrite bind_run, Hig. simpl. by rewrite npmInstall_run.
Qed.

Lemma fetch_and_finish_unanswered name o repo fs fs1 err :
  download E repo name fs = (fs1, None) ->
  ignore o = false ->
  answer_inputs E (messages E) = inl err ->
  fetch_and_finish E name o repo fs
  = (Throw err, fs1,
     [ESpinStart TxtPulling; EDownload repo name; ESpinSucceed TxtPulled;
      EInputs (messages E)]).
Proof.
  intros Hdl Hig Hans. unfold fetch_and_finish, try_catch, clone, inquirerInputs.
  rewrite !bind_run. simpl. rewrite Hdl. simpl.
  rewrite bind_run, Hig. simpl. rewrite !bind_run. simpl. by rewrite Hans.
Qed.

Lemma fetch_and_finish_configured name o repo fs fs1 answers fs2 tc :
  download E repo name fs = (fs1, None) ->
  ignore o = false ->
  answer_inputs E (messages E) = inr answers ->
  changePackageJson E name answers fs1 = (Val tt, fs2, tc) ->
  fetch_and_finish E name o repo fs
  = (Exit 1, (shell_exec E (install_command E name) fs2).1,
     [ESpinStart TxtPulling; EDownload repo name; ESpinSucceed TxtPulled;
      EInputs (messages E)]
     ++ tc
     ++ EExec (install_command E name)
     :: install_report (shell_exec E (install_command E name) fs2).2).
Proof.
  intros Hdl Hig Hans Hcfg. unfold fetch_and_finish, try_catch, clone, inquirerInputs.
  rewrite !bind_run. simpl. rewrite Hdl. simpl.
  rewrite bind_run, Hig. simpl. rewrite !bind_run. simpl. rewrite Hans. simpl.
  rewrite Hcfg. by rewrite npmInstall_run.
Qed.

(** Steps 5 to 7 never end in a [return]. *)
Lemma fetch_and_finish_result name o repo fs :
  exists r fs' t,
    fetch_and_finish E name o repo fs = (r, fs', t)
    /\ (r = Exit 1 \/ exists err, r = Throw err /\ prompt_rejects E name err).
Proof.
  destruct (download E repo name fs) as [fs1 [err|]] eqn:Hdl.
  - rewrite (fetch_and_finish_offline name o repo fs fs1 err) by done. eauto 6.
  - destruct (ignore o) eqn:Hig.
    + rewrite (fetch_and_finish_ignore name o repo fs fs1) by done. eauto 6.
    + destruct (answer_inputs E (messages E)) as [err|answers] eqn:Hans.
      * rewrite (fetch_and_finish_unanswered name o repo fs fs1 err) by done.
        do 3 eexists. split; [done|]. right. exists err. split; [done|].
        right. by right.
      * destruct (changePackageJson_total name answers fs1) as (fs2 & tc & Hcfg).
        rewrite (fetch_and_finish_configured name o repo fs fs1 answers fs2 tc)
          by done.
        eauto 6.
Qed.

(** From the clone on, the action is steps 5 to 7. *)
Lemma initAction_after_reach name o fs repo fs1 th :
  reaches_fetch E name o fs repo fs1 th ->
  initAction E name o fs
  = let '(r, fs', t) := fetch_and_finish E name o repo fs1 in (r, fs', th ++ t).
Proof.
  intros [repo' t0 fs1' tc Hgit Hm Htpl Hcd].
  rewrite (initAction_from_step4 E name o fs repo' t0) by done.
  unfold function_body. rewrite bind_run, Hcd.
  destruct (fetch_and_finish_result name o repo' fs1') as (r & fs' & t & -> & Hr).
  rewrite <- app_assoc.
  by destruct Hr as [->|(err & -> & _)].
Qed.

(** Step 4, by cases. *)
Lemma clear_destination_cases name o fs :
  clear_destination E name o fs = (Val tt, fs, [])
  \/ removal_due E name o fs
  \/ clear_destination E name o fs
     = (Returned, fs,
        [EConsole (TxtFolderExists name); EConfirm (TxtDeleteFolder name);
         EConsole (TxtSameNameFolder name)])
  \/ exists err,
       answer_confirm E (TxtDeleteFolder name) = inl err
       /\ clear_destination E name o fs
          = (Throw err, fs,
             [EConsole (TxtFolderExists name); EConfirm (TxtDeleteFolder name)]).
Proof.
  destruct (fs_existsSync E (resolveApp E name) fs) eqn:Hex1;
    destruct (force o) eqn:Hf.
  - destruct (fs_existsSync E name fs) eqn:Hex2.
    + right. left. right. done.
    + left. unfold clear_destination, existsSync.
      rewrite bind_run, Hex1, Hf. simpl. by rewrite bind_run, Hex2.
  - destruct (answer_confirm E (TxtDeleteFolder name)) as [err|[|]] eqn:Hans.
    + right. right. right. exists err. split; [done|].
      unfold clear_destination, existsSync, inquirerConfirm.
      rewrite bind_run, Hex1, Hf. simpl.
      rewrite ?bind_run. simpl. by rewrite ?bind_run, Hans.
    + right. left. left. done.
    + right. right. left. by apply clear_destination_declined.
  - destruct (fs_existsSync E name fs) eqn:Hex2.
    + right. left. right. done.
    + left. by apply clear_destination_absent.
  - left. unfold clear_destination, existsSync.
    rewrite bind_run, Hex1. simpl. rewrite bind_run. by rewrite Hf, andb_false_r.
Qed.

(** Before the clone nothing but the project folder is touched. *)
Lemma reaches_fetch_prefix name o fs repo fs1 th :
  reaches_fetch E name o fs repo fs1 th ->
  Forall (fun e => is_mutation e = true -> e = ERemove (resolveApp E name)) th
  /\ Forall (fun e => e ≠ ESpinSucceed TxtPulled) th.
Proof.
  intros [repo' t0 fs1' tc Hgit Hm Htpl Hcd].
  assert (Ht0 : t0 = [] \/ t0 = [EChoose TxtChooseTemplate (templates E)])
    by (destruct Htpl; auto).
  assert (Htc : tc = []
                \/ tc = EConsole (TxtFolderExists name)
                        :: (if force o then [] else [EConfirm (TxtDeleteFolder name)])
                        ++ ESpinStart (TxtRemoving name) :: ERemove (resolveApp E name)
                        :: match (fs_remove E (resolveApp E name) fs).2 with
                           | None => [ESpinSucceed (TxtRemoved name)]
                           | Some err =>
                               [ESpinFail (TxtRemoveFailed name);
                                EConsole (TxtError err)]
                           end).
  { destruct (clear_destination_cases name o fs)
      as [Hc|[Hdue|[Hc|(err & _ & Hc)]]].
    - left. congruence.
    - right. rewrite (clear_destination_removes E name o fs Hdue) in Hcd. congruence.
    - congruence.
    - congruence. }
  split; apply Forall_app; split.
  - destruct Ht0 as [->| ->]; repeat constructor; done.
  - destruct Htc as [->| ->]; [constructor|].
    destruct (force o), (fs_remove E (resolveApp E name) fs).2;
      repeat constructor; done.
  - destruct Ht0 as [->| ->]; repeat constructor; done.
  - destruct Htc as [->| ->]; [constructor|].
    destruct (force o), (fs_remove E (resolveApp E name) fs).2;
      repeat constructor; done.
Qed.

(** A run either stops before the clone, with nothing touched, or reaches
    it. *)
Lemma initAction_stops_or_reaches name o fs :
  (exists r t,
     initAction E name o fs = (r, fs, t) /\ mutations t = []
     /\ (r = Val tt \/ r = Exit 1
         \/ exists err, r = Throw err /\ prompt_rejects E name err))
  \/ (exists repo fs1 th, reaches_fetch E name o fs repo fs1 th).
Proof.
  destruct (which_git E) eqn:Hgit.
  2: { left. rewrite initAction_without_git by done. eauto 7. }
  destruct (match_g illegal_name_class name) as [ms|] eqn:Hm.
  { left. rewrite (initAction_name_rejected E name o fs ms) by done. eauto 7. }
  destruct (template_step_cases E o)
    as [[Ht Hfind]|[[Ht [err Hch]]|(repo & t0 & Htpl & Ht0)]].
  { left. rewrite initAction_unknown_template by done. eauto 7. }
  { left. rewrite (initAction_prompt_rejected E name o fs err) by done.
    do 2 eexists. split; [done|]. split; [done|].
    right. right. exists err. split; [done|]. by left. }
  destruct (clear_destination_cases name o fs)
    as [Hc|[Hdue|[Hc|(err & Hans & Hc)]]].
  - right. exists repo, fs, (t0 ++ []). by constructor.
  - right. do 3 eexists. constructor; try done.
    by apply clear_destination_removes.
  - left. rewrite (initAction_from_step4 E name o fs repo t0) by done.
    unfold function_body. rewrite bind_run, Hc.
    do 2 eexists. split; [done|]. split; [|by left].
    by rewrite mutations_app, Ht0.
  - left. rewrite (initAction_from_step4 E name o fs repo t0) by done.
    unfold function_body. rewrite bind_run, Hc.
    do 2 eexists. split; [done|]. split; [by rewrite mutations_app, Ht0|].
    right. right. exists err. split; [done|]. right. by left.
Qed.

End Outcomes.

(** Membership of an event in an explicit trace, refuted by looking. *)
Ltac absent_from_trace H :=
  repeat (apply elem_of_cons in H as [H|H]; [discriminate H|]);
  by apply elem_of_nil in H.

Lemma mutation_elem t e :
  e ∈ t -> is_mutation e = true -> e ∈ mutations t.
Proof.
  intros He Hm. apply list_elem_of_In, filter_In. split; [by apply list_elem_of_In|done].
Qed.

Lemma not_mutated t e : mutations t = [] -> e ∈ t -> is_mutation e = false.
Proof.
  intros Hno He. destruct (is_mutation e) eqn:Hm; [|done].
  apply (mutation_elem t e He) in Hm. rewrite Hno in Hm. by apply elem_of_nil in Hm.
Qed.

Lemma install_report_events code e :
  e ∈ install_report code ->
  e = ESpinSucceed TxtInstalled \/ e = ESpinSucceed TxtCreated
  \/ e = EConsole TxtInstallFailed.
Proof.
  unfold install_report. destruct (code =? 0)%Z; intros He;
    repeat (apply elem_of_cons in He as [->|He]; [tauto|]);
    by apply elem_of_nil in He.
Qed.

(** A command stands after every stretch of the trace without one. *)
Lemma trace_prefix_before (l1 rest before : list event) (e : event) (after : list event) :
  before ++ e :: after = l1 ++ rest ->
  Forall (fun e' => forall c, e' ≠ EExec c) l1 ->
  (exists c, e = EExec c) ->
  exists k, before = l1 ++ k.
Proof.
  intros Heq Hfree [c ->]. revert before Heq.
  induction Hfree as [|x l1 Hx Hfree IH]; intros before Heq; [by exists before|].
  destruct before as [|b before]; simpl in Heq; injection Heq as Hhead Htail.
  - exfalso. by apply (Hx c).
  - subst b. destruct (IH before Htail) as [k ->]. by exists k.
Qed.

Section Endings.

Context {FS : Type} (E : Env FS).

Implicit Types (name : list N) (o : Options) (fs : FS).

(** X10: how the action can end.  Every run ends in one of three ways: it
    completes, the process exits with status 1, or a prompt has rejected
    and its error is thrown on.  No failure of the removal, the clone, the
    manifest or the install is ever thrown out of the action, and no exit
    has another status. *)
Theorem X10_outcomes name o fs :
  let r := (initAction E name o fs).1.1 in
  r = Val tt \/ r = Exit 1
  \/ exists err, r = Throw err /\ prompt_rejects E name err.
Proof.
  destruct (initAction_stops_or_reaches E name o fs)
    as [(r & t & -> & _ & Hr)|(repo & fs1 & th & Hreach)]; [done|].
  rewrite (initAction_after_reach E name o fs repo fs1 th Hreach).
  destruct (fetch_and_finish_result E name o repo fs1) as (r & fs' & t & -> & Hr).
  simpl. tauto.
Qed.

(** X11: a run that ends with status 0 has touched nothing.  When the
    action completes (the process then ends with status 0), the file
    system is as it was and there was no removal, clone, manifest write or
    install: every run that clones ends by an exit with status 1 or by a
    thrown error. *)
Theorem X11_status_zero_untouched name o fs :
  exit_status (initAction E name o fs).1.1 = Some 0%Z ->
  (initAction E name o fs).1.2 = fs /\ mutations (initAction E name o fs).2 = [].
Proof.
  destruct (initAction_stops_or_reaches E name o fs)
    as [(r & t & -> & Hno & Hr)|(repo & fs1 & th & Hreach)]; [done|].
  rewrite (initAction_after_reach E name o fs repo fs1 th Hreach).
  destruct (fetch_and_finish_result E name o repo fs1)
    as (r & fs' & t & -> & [->|(err & -> & _)]); simpl; discriminate.
Qed.

(** Where a command is executed, the trace begins with what came before
    the clone and the clone's three events, and the run ends by an exit
    with status 1. *)
Lemma initAction_exec_shape name o fs command :
  EExec command ∈ (initAction E name o fs).2 ->
  exists th repo rest,
    (initAction E name o fs).2
    = (th ++ [ESpinStart TxtPulling; EDownload repo name; ESpinSucceed TxtPulled])
      ++ rest
    /\ Forall (fun e => forall c, e ≠ EExec c) th
    /\ (initAction E name o fs).1.1 = Exit 1.
Proof.
  destruct (initAction_stops_or_reaches E name o fs)
    as [(r & t & -> & Hno & Hr)|(repo & fs1 & th & Hreach)].
  { simpl. intros He. by apply (not_mutated t _ Hno) in He. }
  rewrite (initAction_after_reach E name o fs repo fs1 th Hreach).
  destruct (reaches_fetch_prefix E name o fs repo fs1 th Hreach) as [Hth _].
  assert (Hfree : Forall (fun e => forall c, e ≠ EExec c) th).
  { eapply Forall_impl; [exact Hth|]. intros e He c ->. by specialize (He eq_refl). }
  assert (Hnot : EExec command ∉ th).
  { intros Hin. rewrite Forall_forall in Hfree. by apply (Hfree _ Hin command). }
  destruct (download E repo name fs1) as [fs2 [err|]] eqn:Hdl.
  { rewrite (fetch_and_finish_offline E name o repo fs1 fs2 err) by done. simpl.
    intros He. apply elem_of_app in He as [He|He]; [done|]. absent_from_trace He. }
  destruct (ignore o) eqn:Hig.
  { rewrite (fetch_and_finish_ignore E name o repo fs1 fs2) by done. simpl.
    intros _. exists th, repo. eexists. split; [|done].
    rewrite <- app_assoc. reflexivity. }
  destruct (answer_inputs E (messages E)) as [err|answers] eqn:Hans.
  { rewrite (fetch_and_finish_unanswered E name o repo fs1 fs2 err) by done. simpl.
    intros He. apply elem_of_app in He as [He|He]; [done|]. absent_from_trace He. }
  destruct (changePackageJson_total E name answers fs2) as (fs3 & tc & Hcfg).
  rewrite (fetch_and_finish_configured E name o repo fs1 fs2 answers fs3 tc) by done.
  simpl. intros _. exists th, repo. eexists. split; [|done].
  rewrite <- app_assoc. reflexivity.
Qed.

(** X12: the install comes after a successful clone, and the process then
    exits with status 1.  Wherever a run executes a command, the command
    line is [cd <pwd>/<name> && npm install --force] with the name as
    typed, the clone's report of success stands earlier in the trace, and
    the run ends by [shell.exit(1)], whatever the command's exit code. *)
Theorem X12_install_after_clone_exits_1 name o fs before command after :
  (initAction E name o fs).2 = before ++ EExec command :: after ->
  command = jstr "cd " ++ shell_pwd E ++ jstr "/" ++ name
            ++ jstr " && npm install --force"
  /\ ESpinSucceed TxtPulled ∈ before
  /\ (initAction E name o fs).1.1 = Exit 1.
Proof.
  intros Htrace.
  assert (He : EExec command ∈ (initAction E name o fs).2).
  { rewrite Htrace. apply elem_of_app. right. apply list_elem_of_here. }
  split; [exact (initAction_event E name o fs _ He)|].
  destruct (initAction_exec_shape name o fs command He)
    as (th & repo & rest & Hshape & Hfree & Hexit).
  split; [|done].
  rewrite Htrace in Hshape.
  destruct (trace_prefix_before
              (th ++ [ESpinStart TxtPulling; EDownload repo name; ESpinSucceed TxtPulled])
              rest before (EExec command) after Hshape) as [k ->].
  - apply Forall_app. split; [done|]. by repeat constructor.
  - by exists command.
  - apply elem_of_app. left. apply elem_of_app. right.
    do 2 apply list_elem_of_further. apply list_elem_of_here.
Qed.

(** X13: a failed clone is fatal and ends the run at once.  When a run
    reaches the clone and the download fails, the failure is shown, the
    process exits with status 1, and nothing follows: no manifest question,
    no manifest write, no install; the file system is as the failed
    download left it. *)
Theorem X13_clone_failure_fatal name o fs repo fs1 th fs2 err :
  reaches_fetch E name o fs repo fs1 th ->
  download E repo name fs1 = (fs2, Some err) ->
  initAction E name o fs
  = (Exit 1, fs2,
     th ++ [ESpinStart TxtPulling; EDownload repo name; ESpinFail (TxtError err);
            EConsole TxtCreateFailed; EConsole (TxtError err)]).
Proof.
  intros Hreach Hdl.
  rewrite (initAction_after_reach E name o fs repo fs1 th Hreach).
  by rewrite (fetch_and_finish_offline E name o repo fs1 fs2 err).
Qed.

(** X14: a manifest that cannot be read or written does not stop the
    install.  When the clone has succeeded, [--ignore] is not given and the
    questions are answered, [changePackageJson] completes whatever
    [readJson] and [writeJson] do, the install command is executed next,
    and the process exits with status 1. *)
Theorem X14_manifest_failure_not_fatal name o fs repo fs1 th fs2 answers :
  reaches_fetch E name o fs repo fs1 th ->
  download E repo name fs1 = (fs2, None) ->
  ignore o = false ->
  answer_inputs E (messages E) = inr answers ->
  exists fs3 tc,
    changePackageJson E name answers fs2 = (Val tt, fs3, tc)
    /\ initAction E name o fs
       = (Exit 1, (shell_exec E (install_command E name) fs3).1,
          th ++ [ESpinStart TxtPulling; EDownload repo name; ESpinSucceed TxtPulled;
                 EInputs (messages E)]
          ++ tc
          ++ EExec (install_command E name)
          :: install_report (shell_exec E (install_command E name) fs3).2).
Proof.
  intros Hreach Hdl Hig Hans.
  destruct (changePackageJson_total E name answers fs2) as (fs3 & tc & Hcfg).
  exists fs3, tc. split; [done|].
  rewrite (initAction_after_reach E name o fs repo fs1 th Hreach).
  by rewrite (fetch_and_finish_configured E name o repo fs1 fs2 answers fs3 tc).
Qed.

(** X15: [changePackageJson] never fails its caller and writes at most
    once.  It always completes.  When the manifest cannot be read, nothing
    is written and the file system is as it was.  When an object is read,
    the one write is of the patched object to the project's
    [package.json].  When a value that is not an object is read (null, a
    primitive, an array), either the loop throws, and then nothing is
    written and the file system is as it was, or the loop leaves a value,
    and then that value is the one write; with nothing to assign the value
    read is written back. *)
Theorem X15_changePackageJson_contained name info fs :
  let path := resolveApp E (package_json name) in
  exists fs' t,
    changePackageJson E name info fs = (Val tt, fs', t)
    /\ match fs_readJson E path fs with
       | inl _ => fs' = fs /\ mutations t = []
       | inr (DocObject pkg) =>
           fs' = (fs_writeJson E path (DocObject (applyPatch name info pkg)) fs).1
           /\ mutations t = [EWriteJson path (DocObject (applyPatch name info pkg))]
       | inr (DocOther v) =>
           match patch_document (assign_other E) name info (DocOther v) with
           | inl _ => fs' = fs /\ mutations t = []
           | inr left_by_loop =>
               fs' = (fs_writeJson E path left_by_loop fs).1
               /\ mutations t = [EWriteJson path left_by_loop]
               /\ ((forall entry, entry ∈ info -> assignment name entry = None) ->
                   left_by_loop = DocOther v)
           end
       end.
Proof.
  simpl.
  destruct (fs_readJson E (resolveApp E (package_json name)) fs) as [err|[pkg|v]] eqn:Hread.
  - rewrite (changePackageJson_unreadable E name info fs err) by done. eauto.
  - rewrite (changePackageJson_writes E name info fs pkg) by done.
    do 2 eexists. split; [done|]. split; [done|].
    by destruct (fs_writeJson E _ _ fs).2.
  - destruct (patch_document (assign_other E) name info (DocOther v))
      as [err|doc'] eqn:Hloop.
    + rewrite (changePackageJson_loop_throws E name info fs (DocOther v) err) by done.
      eauto.
    + rewrite (changePackageJson_patched E name info fs (DocOther v) doc') by done.
      do 2 eexists. split; [done|]. split; [done|]. split.
      * by destruct (fs_writeJson E _ _ fs).2.
      * intros Hnone. rewrite patch_document_nothing_to_assign in Hloop by done.
        by injection Hloop as <-.
Qed.

(** X16: a removal is attempted only when it is due.  When a run removes
    something, git was found, the name is legal, the folder of the project
    exists, and either [--force] was given or the user agreed to the
    deletion. *)
Theorem X16_removal_only_when_due name o fs path :
  ERemove path ∈ (initAction E name o fs).2 ->
  which_git E = true /\ ~ illegal_name name /\ removal_due E name o fs.
Proof.
  destruct (initAction_stops_or_reaches E name o fs)
    as [(r & t & -> & Hno & Hr)|(repo & fs1 & th & Hreach)].
  { simpl. intros He. by apply (not_mutated t _ Hno) in He. }
  rewrite (initAction_after_reach E name o fs repo fs1 th Hreach).
  destruct Hreach as [repo' t0 fs1' tc Hgit Hm Htpl Hcd].
  destruct (fetch_and_finish_result E name o repo' fs1') as (r & fs' & t & Hrun & _).
  rewrite Hrun. simpl. intros He.
  split; [done|]. split; [by apply no_match_legal|].
  destruct (clear_destination_cases E name o fs)
    as [Hc|[Hdue|[Hc|(err' & _ & Hc)]]]; [|done|congruence|congruence].
  exfalso. rewrite Hc in Hcd. injection Hcd as <- <-.
  rewrite app_nil_r in He. apply elem_of_app in He as [He|He].
  - destruct Htpl; [by apply elem_of_nil in He|absent_from_trace He].
  - assert (Hall : trace_all (fun e => forall p, e ≠ ERemove p)
                     (fetch_and_finish E name o repo')).
    { unfold fetch_and_finish. apply trace_all_bind.
      - apply trace_all_try_catch; [by apply trace_all_clone|].
        intros err'. apply trace_all_bind; [by apply trace_all_console_log|].
        intros _ _. apply trace_all_bind; [by apply trace_all_console_log|].
        intros _ _. apply trace_all_shell_exit.
      - intros _ _. apply trace_all_bind.
        + destruct (negb (ignore o)); [|apply trace_all_ret].
          apply trace_all_bind; [by apply trace_all_inquirerInputs|].
          intros answers _. by apply trace_all_changePackageJson.
        + intros _ _. by apply trace_all_npmInstall. }
    specialize (Hall fs). rewrite Hrun in Hall. simpl in Hall.
    rewrite Forall_forall in Hall. by apply (Hall _ He path).
Qed.

(** X17: a template name registered twice resolves to its first entry.
    When [--template] carries a value that is not empty and the registry
    has an entry of that name, every clone of every run is from the
    repository of the first such entry, without a question. *)
Theorem X17_first_registered_template name o fs s before d after remote dest :
  template o = TplValue s ->
  s ≠ [] ->
  templates E = before ++ d :: after ->
  (forall d', d' ∈ before -> tpl_name d' ≠ s) ->
  tpl_name d = s ->
  EDownload remote dest ∈ (initAction E name o fs).2 ->
  remote = tpl_value d /\ dest = name.
Proof.
  intros Ho Hs Hts Hbefore Hd He.
  apply initAction_event in He. destruct He as [-> [t0 Htpl]].
  split; [|done].
  assert (Hfind : List.find (name_is (template o)) (templates E) = Some d).
  { rewrite Hts, Ho. clear Hts. induction before as [|d' before IH]; simpl.
    - by rewrite bool_decide_eq_true_2.
    - rewrite bool_decide_eq_false_2 by (apply Hbefore, list_elem_of_here).
      apply IH. intros d'' Hin. by apply Hbefore, list_elem_of_further. }
  assert (Ht : template_truthy (template o) = true).
  { rewrite Ho. simpl. by destruct s. }
  destruct Htpl as [d' Ht' Hfind'|repo Ht' _]; congruence.
Qed.

(** X18: without a usable [--template] the clone is from what the user
    chose.  When [--template] is absent or carries the empty string, every
    clone of every run is from the repository the template prompt
    answered. *)
Theorem X18_clone_from_chosen_template name o fs remote dest :
  template_truthy (template o) = false ->
  EDownload remote dest ∈ (initAction E name o fs).2 ->
  answer_choose E TxtChooseTemplate (templates E) = inr remote /\ dest = name.
Proof.
  intros Ht He. apply initAction_event in He. destruct He as [-> [t0 Htpl]].
  split; [|done]. destruct Htpl as [d' Ht' _|repo _ Hch]; congruence.
Qed.

End Endings.

(** ** The further properties on the concrete worlds *)

(** Membership in the trace of a concrete run, by running it. *)
Ltac in_computed_trace :=
  vm_compute; repeat first [apply list_elem_of_here | apply list_elem_of_further].

Lemma X7_witness :
  jstr "cd /home/dev/myapp && npm install --force"
  = jstr "cd " ++ shell_pwd (Demo.env true true) ++ jstr "/" ++ Demo.myapp
    ++ jstr " && npm install --force".
Proof.
  apply (X7_mutating_calls_arguments (Demo.env true true) Demo.myapp
           Demo.vue_ignore Demo.clean
           (EExec (jstr "cd /home/dev/myapp && npm install --force"))).
  in_computed_trace.
Defined.

(** A legal name that the shell does not read as a folder name: the line
    executed is a pipeline, and a name that is an absolute path is appended
    to the working directory while the clone goes to the path itself. *)
Example piped_name_command :
  ~ illegal_name (jstr "a|true")
  /\ (initAction (Demo.env true true) (jstr "a|true") Demo.vue_ignore Demo.clean).2
     = [ESpinStart TxtPulling;
        EDownload (tpl_value Demo.vue) (jstr "a|true");
        ESpinSucceed TxtPulled;
        EExec (jstr "cd /home/dev/a|true && npm install --force");
        ESpinSucceed TxtInstalled; ESpinSucceed TxtCreated].
Proof. split; [apply no_match_legal; reflexivity|vm_compute; reflexivity]. Qed.

Example absolute_name_command :
  ~ illegal_name (jstr "/tmp/x")
  /\ (initAction (Demo.env true true) (jstr "/tmp/x") Demo.vue_ignore Demo.clean).2
     = [ESpinStart TxtPulling;
        EDownload (tpl_value Demo.vue) (jstr "/tmp/x");
        ESpinSucceed TxtPulled;
        EExec (jstr "cd /home/dev//tmp/x && npm install --force");
        ESpinSucceed TxtInstalled; ESpinSucceed TxtCreated].
Proof. split; [apply no_match_legal; reflexivity|vm_compute; reflexivity]. Qed.

Lemma X8_witness :
  (force Demo.vue_force = true ->
   forall t, ERemove (jstr "/home/dev/myapp") ≠ EConfirm t)
  /\ (ignore Demo.vue_force = true ->
      (forall qs, ERemove (jstr "/home/dev/myapp") ≠ EInputs qs)
      /\ (forall path pkg, ERemove (jstr "/home/dev/myapp") ≠ EWriteJson path pkg))
  /\ (template_given (template Demo.vue_force) ->
      forall t choices, ERemove (jstr "/home/dev/myapp") ≠ EChoose t choices).
Proof.
  apply (X8_options_silence_prompts (Demo.env true true) Demo.myapp
           Demo.vue_force Demo.taken).
  in_computed_trace.
Defined.

Example forced_run_asks_nothing :
  (initAction (Demo.env true true) Demo.myapp Demo.vue_force Demo.taken).2
  = [EConsole (TxtFolderExists Demo.myapp);
     ESpinStart (TxtRemoving Demo.myapp);
     ERemove (jstr "/home/dev/myapp");
     ESpinSucceed (TxtRemoved Demo.myapp);
     ESpinStart TxtPulling;
     EDownload (tpl_value Demo.vue) Demo.myapp;
     ESpinSucceed TxtPulled;
     EExec (jstr "cd /home/dev/myapp && npm install --force");
     ESpinSucceed TxtInstalled; ESpinSucceed TxtCreated].
Proof. vm_compute. reflexivity. Qed.

Lemma X9_witness :
  EConsole TxtIllegalName
    ∈ (initAction (Demo.env true true) (jstr "my app/v2") Demo.angular Demo.clean).2
  <-> illegal_name (jstr "my app/v2").
Proof.
  apply (X9_rejection_exact (Demo.env true true) (jstr "my app/v2") Demo.angular
           Demo.clean).
  reflexivity.
Defined.

Example spaces_and_slashes_pass : ~ illegal_name (jstr "my app/v2").
Proof. apply no_match_legal. reflexivity. Qed.

Lemma X11_witness :
  (initAction (Demo.env true false) Demo.myapp Demo.vue_only Demo.taken).1.2
  = Demo.taken
  /\ mutations (initAction (Demo.env true false) Demo.myapp Demo.vue_only Demo.taken).2
     = [].
Proof.
  apply (X11_status_zero_untouched (Demo.env true false) Demo.myapp Demo.vue_only
           Demo.taken).
  vm_compute. reflexivity.
Defined.

Lemma X12_witness :
  jstr "cd /home/dev/myapp && npm install --force"
  = jstr "cd " ++ shell_pwd (Faulty.env true 7 true) ++ jstr "/" ++ Demo.myapp
    ++ jstr " && npm install --force"
  /\ ESpinSucceed TxtPulled
       ∈ [ESpinStart TxtPulling; EDownload (tpl_value Demo.vue) Demo.myapp;
          ESpinSucceed TxtPulled]
  /\ (initAction (Faulty.env true 7 true) Demo.myapp Demo.vue_ignore Demo.clean).1.1
     = Exit 1.
Proof.
  apply (X12_install_after_clone_exits_1 (Faulty.env true 7 true) Demo.myapp
           Demo.vue_ignore Demo.clean
           [ESpinStart TxtPulling; EDownload (tpl_value Demo.vue) Demo.myapp;
            ESpinSucceed TxtPulled]
           (jstr "cd /home/dev/myapp && npm install --force")
           [EConsole TxtInstallFailed]).
  vm_compute. reflexivity.
Defined.

Example failed_install_run :
  (initAction (Faulty.env true 7 true) Demo.myapp Demo.vue_ignore Demo.clean).2
  = [ESpinStart TxtPulling;
     EDownload (tpl_value Demo.vue) Demo.myapp;
     ESpinSucceed TxtPulled;
     EExec (jstr "cd /home/dev/myapp && npm install --force");
     EConsole TxtInstallFailed].
Proof. vm_compute. reflexivity. Qed.

Lemma X13_witness :
  initAction (Faulty.env false 0 true) Demo.myapp Demo.vue_only Demo.clean
  = (Exit 1, Demo.clean,
     [ESpinStart TxtPulling; EDownload (tpl_value Demo.vue) Demo.myapp;
      ESpinFail (TxtError (jstr "ETIMEDOUT"));
      EConsole TxtCreateFailed; EConsole (TxtError (jstr "ETIMEDOUT"))]).
Proof.
  apply (X13_clone_failure_fatal (Faulty.env false 0 true) Demo.myapp Demo.vue_only
           Demo.clean (tpl_value Demo.vue) Demo.clean ([] ++ [])).
  - apply (reaches_fetch_intro _ _ _ _ (tpl_value Demo.vue) [] Demo.clean []).
    + reflexivity.
    + reflexivity.
    + apply (resolved_by_option _ _ Demo.vue); reflexivity.
    + vm_compute. reflexivity.
  - reflexivity.
Defined.

Lemma X14_witness :
  exists fs3 tc,
    changePackageJson (Faulty.env true 0 false) Demo.myapp Demo.answers
      (download (Faulty.env true 0 false) (tpl_value Demo.vue) Demo.myapp Demo.clean).1
    = (Val tt, fs3, tc)
    /\ initAction (Faulty.env true 0 false) Demo.myapp Demo.vue_only Demo.clean
       = (Exit 1,
          (shell_exec (Faulty.env true 0 false)
             (install_command (Faulty.env true 0 false) Demo.myapp) fs3).1,
          ([] ++ [])
          ++ [ESpinStart TxtPulling; EDownload (tpl_value Demo.vue) Demo.myapp;
              ESpinSucceed TxtPulled; EInputs Demo.questions]
          ++ tc
          ++ EExec (install_command (Faulty.env true 0 false) Demo.myapp)
          :: install_report
               (shell_exec (Faulty.env true 0 false)
                  (install_command (Faulty.env true 0 false) Demo.myapp) fs3).2).
Proof.
  apply (X14_manifest_failure_not_fatal (Faulty.env true 0 false) Demo.myapp
           Demo.vue_only Demo.clean (tpl_value Demo.vue) Demo.clean ([] ++ [])).
  - apply (reaches_fetch_intro _ _ _ _ (tpl_value Demo.vue) [] Demo.clean []).
    + reflexivity.
    + reflexivity.
    + apply (resolved_by_option _ _ Demo.vue); reflexivity.
    + vm_compute. reflexivity.
  - vm_compute. reflexivity.
  - reflexivity.
  - reflexivity.
Defined.

Example unreadable_manifest_run :
  (initAction (Faulty.env true 0 false) Demo.myapp Demo.vue_only Demo.clean).2
  = [ESpinStart TxtPulling;
     EDownload (tpl_value Demo.vue) Demo.myapp;
     ESpinSucceed TxtPulled;
     EInputs Demo.questions;
     EConsole TxtManifestFailed; EConsole (TxtError (jstr "EACCES"));
     EExec (jstr "cd /home/dev/myapp && npm install --force");
     ESpinSucceed TxtInstalled; ESpinSucceed TxtCreated].
Proof. vm_compute. reflexivity. Qed.

Lemma X16_witness :
  which_git (Demo.env false true) = true
  /\ ~ illegal_name Demo.myapp
  /\ removal_due (Demo.env false true) Demo.myapp Demo.vue_force Demo.taken.
Proof.
  apply (X16_removal_only_when_due (Demo.env false true) Demo.myapp Demo.vue_force
           Demo.taken (jstr "/home/dev/myapp")).
  in_computed_trace.
Defined.

Lemma X17_witness :
  jstr "github:demo/vue-template" = tpl_value Demo.vue /\ Demo.myapp = Demo.myapp.
Proof.
  apply (X17_first_registered_template Faulty.doubled Demo.myapp Demo.vue_ignore
           Demo.clean (jstr "vue") [Demo.react] Demo.vue [Faulty.vue_again]).
  - reflexivity.
  - discriminate.
  - reflexivity.
  - intros d' Hd'. apply elem_of_cons in Hd' as [->|Hd']; [discriminate|].
    by apply elem_of_nil in Hd'.
  - reflexivity.
  - in_computed_trace.
Defined.

Lemma X18_witness :
  answer_choose (Demo.env true true) TxtChooseTemplate (templates (Demo.env true true))
  = inr (jstr "github:demo/react-template")
  /\ Demo.myapp = Demo.myapp.
Proof.
  apply (X18_clone_from_chosen_template (Demo.env true true) Demo.myapp
           Demo.empty_template Demo.clean).
  - reflexivity.
  - in_computed_trace.
Defined.

(** ** When the confirmation is asked *)

Section Confirmation.

Context {FS : Type} (E : Env FS).

Implicit Types (name : list N) (o : Options) (fs : FS).

Local Arguments bind : simpl never.

(** Steps 5 to 7 ask no confirmation. *)
Lemma fetch_and_finish_no_confirm name o repo :
  trace_all (fun e => forall t, e ≠ EConfirm t) (fetch_and_finish E name o repo).
Proof.
  unfold fetch_and_finish. apply trace_all_bind.
  - apply trace_all_try_catch; [by apply trace_all_clone|].
    intros err. apply trace_all_bind; [by apply trace_all_console_log|].
    intros _ _. apply trace_all_bind; [by apply trace_all_console_log|].
    intros _ _. apply trace_all_shell_exit.
  - intros _ _. apply trace_all_bind.
    + destruct (negb (ignore o)); [|apply trace_all_ret].
      apply trace_all_bind; [by apply trace_all_inquirerInputs|].
      intros answers _. by apply trace_all_changePackageJson.
    + intros _ _. by apply trace_all_npmInstall.
Qed.

(** Without [--force], a destination that is not there lets step 4 pass
    in silence. *)
Lemma clear_destination_not_there name o fs :
  fs_existsSync E (resolveApp E name) fs = false ->
  force o = false ->
  clear_destination E name o fs = (Val tt, fs, []).
Proof.
  intros Hex Hf. unfold clear_destination, existsSync.
  rewrite bind_run, Hex. simpl. rewrite bind_run. by rewrite Hf, andb_false_r.
Qed.

(** X19: the confirmation is asked only about an existing destination and
    only without [--force].  When a run asks for a confirmation, the
    question is whether to delete the project folder, the resolved folder
    exists, and [--force] was not given. *)
Theorem X19_confirmation_only_on_conflict name o fs t :
  EConfirm t ∈ (initAction E name o fs).2 ->
  t = TxtDeleteFolder name
  /\ fs_existsSync E (resolveApp E name) fs = true
  /\ force o = false.
Proof.
  intros He. pose proof (initAction_event E name o fs _ He) as [-> Hf].
  split; [done|]. split; [|done].
  destruct (fs_existsSync E (resolveApp E name) fs) eqn:Hex; [done|exfalso].
  revert He. destruct (which_git E) eqn:Hgit.
  2: { rewrite initAction_without_git by done. simpl. intros He.
       absent_from_trace He. }
  destruct (match_g illegal_name_class name) as [ms|] eqn:Hm.
  { rewrite (initAction_name_rejected E name o fs ms) by done. simpl. intros He.
    absent_from_trace He. }
  destruct (template_step_cases E o)
    as [[Ht Hfind]|[[Ht [err Hch]]|(repo & t0 & Htpl & Ht0)]].
  { rewrite initAction_unknown_template by done. simpl. intros He.
    absent_from_trace He. }
  { rewrite (initAction_prompt_rejected E name o fs err) by done. simpl. intros He.
    absent_from_trace He. }
  rewrite (initAction_from_step4 E name o fs repo t0) by done.
  unfold function_body. rewrite bind_run, clear_destination_not_there by done.
  pose proof (fetch_and_finish_no_confirm name o repo fs) as Hall.
  destruct (fetch_and_finish E name o repo fs) as [[r fs'] tt'].
  simpl in Hall. rewrite Forall_forall in Hall.
  assert (Hin : EConfirm (TxtDeleteFolder name) ∈ t0 ++ tt' -> False).
  { intros He. apply elem_of_app in He as [He|He].
    - destruct Htpl; [by apply elem_of_nil in He|absent_from_trace He].
    - by apply (Hall _ He (TxtDeleteFolder name)). }
  by destruct r.
Qed.

End Confirmation.

Lemma X19_witness :
  TxtDeleteFolder Demo.myapp = TxtDeleteFolder Demo.myapp
  /\ fs_existsSync (Demo.env true true) (resolveApp (Demo.env true true) Demo.myapp)
       Demo.taken = true
  /\ force Demo.vue_only = false.
Proof.
  apply (X19_confirmation_only_on_conflict (Demo.env true true) Demo.myapp
           Demo.vue_only Demo.taken).
  in_computed_trace.
Defined.

(** A template whose manifest holds [null]: the manifest is read, the first
    assignment throws, the failure is reported, nothing is written, and the
    install runs all the same. *)
Example null_manifest_run :
  let '(r, disk, t) :=
    initAction Faulty.null_manifest Demo.myapp Demo.vue_only Demo.clean in
  r = Exit 1
  /\ t = [ESpinStart TxtPulling;
          EDownload (tpl_value Demo.vue) Demo.myapp;
          ESpinSucceed TxtPulled;
          EInputs Demo.questions;
          EConsole TxtManifestFailed; EConsole (TxtError (jstr "TypeError"));
          EExec (jstr "cd /home/dev/myapp && npm install --force");
          ESpinSucceed TxtInstalled; ESpinSucceed TxtCreated]
  /\ disk !! jstr "/home/dev/myapp/package.json" = Some (Demo.OtherJson JNull).
Proof. vm_compute. repeat split; reflexivity. Qed.
